(** * Musicdott 1.0 CSV to Musicdott 2.0 JSON converter

    A shallow embedding of [scripts/convert_csv_to_json.py] and the
    properties of its three converters (songs, notation, students with
    their weekly schedule).

    Python text is modelled by Rocq strings of 8-bit characters, read as the
    code points U+0000..U+00FF (the text every latin-1 decoding yields).  The
    library functions the script calls ([str.strip], [str.lower], [int],
    [re.search], [datetime] arithmetic) are transcribed for that range. *)

From Stdlib Require Import ZArith Ascii String List Bool Lia.
From stdpp Require Import base option list strings gmap.

Local Open Scope Z_scope.

(* Let [simpl] unfold the concatenation of strings on a constructor. *)
#[local] Arguments String.append !_ _ / : simpl nomatch.

(** ** Python strings *)

Module PyStr.

(** The double quote, the single quote and the line feed. *)
Definition dquote : ascii := "034"%char.
Definition squote : ascii := "039"%char.
Definition newline : ascii := "010"%char.
Definition dq : string := String dquote EmptyString.
Definition nl : string := String newline EmptyString.

Definition code (c : ascii) : N := N_of_ascii c.

(** [str.isspace] of one character below U+0100. *)
Definition is_space (c : ascii) : bool :=
  let n := code c in
  (((9 <=? n) && (n <=? 13)) || ((28 <=? n) && (n <=? 32))
   || (n =? 133) || (n =? 160))%N.

(** [str.lower] of one character below U+0100: A-Z and the accented
    capitals U+00C0..U+00DE (the multiplication sign apart). *)
Definition lower_char (c : ascii) : ascii :=
  let n := code c in
  if (((65 <=? n) && (n <=? 90))
      || ((192 <=? n) && (n <=? 222) && negb (n =? 215)))%N
  then ascii_of_N (n + 32) else c.

Fixpoint lower (s : string) : string :=
  match s with
  | EmptyString => EmptyString
  | String c s' => String (lower_char c) (lower s')
  end.

(** Removal of the leading, and of the trailing, characters of a class. *)
Fixpoint lstrip_by (p : ascii -> bool) (s : string) : string :=
  match s with
  | EmptyString => EmptyString
  | String c s' => if p c then lstrip_by p s' else s
  end.

Fixpoint rstrip_by (p : ascii -> bool) (s : string) : string :=
  match s with
  | EmptyString => EmptyString
  | String c s' =>
      match rstrip_by p s' with
      | EmptyString => if p c then EmptyString else String c EmptyString
      | r => String c r
      end
  end.

(** [s.strip()] *)
Definition strip (s : string) : string :=
  rstrip_by is_space (lstrip_by is_space s).

(** [s.startswith(p)] *)
Fixpoint startswith (s p : string) {struct p} : bool :=
  match p, s with
  | EmptyString, _ => true
  | String a p', String b s' => Ascii.eqb a b && startswith s' p'
  | String _ _, EmptyString => false
  end.

(** [s[n:]] *)
Fixpoint drop (n : nat) (s : string) : string :=
  match n, s with
  | O, _ => s
  | S n', String _ s' => drop n' s'
  | S _, EmptyString => EmptyString
  end.

(** [sub in s], for a non-empty [sub]. *)
Fixpoint contains (sub s : string) : bool :=
  startswith s sub
  || match s with
     | EmptyString => false
     | String _ s' => contains sub s'
     end.

(** [s.partition(sep)] when [sep] occurs: the text before the first
    occurrence and the text after it. *)
Fixpoint partition (sep s : string) : option (string * string) :=
  if startswith s sep then Some (EmptyString, drop (String.length sep) s)
  else match s with
       | EmptyString => None
       | String c s' =>
           match partition sep s' with
           | Some (a, b) => Some (String c a, b)
           | None => None
           end
       end.

(** [s.split(sep, 1)] *)
Definition split1 (sep s : string) : list string :=
  match partition sep s with
  | Some (a, b) => [a; b]
  | None => [s]
  end.

(** [l[1]]; the script only indexes after testing [sep in s], so the
    default is never returned (lemma [item1_split1]). *)
Definition item1 (l : list string) : string := nth 1 l EmptyString.

(** [s.replace(a, b)] for single characters. *)
Fixpoint replace_char (a b : ascii) (s : string) : string :=
  match s with
  | EmptyString => EmptyString
  | String c s' =>
      String (if Ascii.eqb c a then b else c) (replace_char a b s')
  end.

(** [s.replace(a, '')] for a single character. *)
Fixpoint remove_char (a : ascii) (s : string) : string :=
  match s with
  | EmptyString => EmptyString
  | String c s' =>
      if Ascii.eqb c a then remove_char a s' else String c (remove_char a s')
  end.

(** [s.split(sep)] for a single character: never empty. *)
Fixpoint split_char (sep : ascii) (s : string) : list string :=
  match s with
  | EmptyString => [EmptyString]
  | String c s' =>
      if Ascii.eqb c sep then EmptyString :: split_char sep s'
      else match split_char sep s' with
           | p :: ps => String c p :: ps
           | [] => [String c EmptyString]
           end
  end.

(** [sep.join(parts)] *)
Fixpoint join (sep : string) (parts : list string) : string :=
  match parts with
  | [] => EmptyString
  | [p] => p
  | p :: ps => p +:+ sep +:+ join sep ps
  end.

(** Truthiness of a string: [if s:]. *)
Definition truthy (s : string) : bool := negb (String.eqb s EmptyString).

(** [a or b] on strings. *)
Definition or_else (a b : string) : string := if truthy a then a else b.

(** *** Decimal numbers *)

Definition is_digit (c : ascii) : bool :=
  let n := code c in ((48 <=? n) && (n <=? 57))%N.

Definition digit_val (c : ascii) : Z := Z.of_N (code c) - 48.

(** The digits of [int]'s argument after the sign: decimal digits with
    single underscores between them.  [acc] is the value read so far,
    [prev] tells whether the previous character was a digit. *)
Fixpoint int_digits (s : string) (acc : Z) (prev : bool) : option Z :=
  match s with
  | EmptyString => if prev then Some acc else None
  | String c s' =>
      if is_digit c then int_digits s' (10 * acc + digit_val c) true
      else if Ascii.eqb c "_" && prev then
             match s' with
             | String d _ => if is_digit d then int_digits s' acc false else None
             | EmptyString => None
             end
           else None
  end.

(** The white space [int] accepts around a number: of the characters
    below U+0100 that [str.isspace] holds for, the four separators
    U+001C..U+001F are refused. *)
Definition is_int_space (c : ascii) : bool :=
  let n := code c in
  (((9 <=? n) && (n <=? 13)) || (n =? 32) || (n =? 133) || (n =? 160))%N.

(** [int(s)]: [None] stands for [ValueError].  Surrounding white space
    is ignored, one sign is allowed.  (The interpreter's configurable
    bound on the number of digits is left out.) *)
Definition py_int (s : string) : option Z :=
  match rstrip_by is_int_space (lstrip_by is_int_space s) with
  | String "+" r => int_digits r 0 false
  | String "-" r => option_map Z.opp (int_digits r 0 false)
  | r => int_digits r 0 false
  end.

Definition digit_char (d : Z) : ascii := ascii_of_N (Z.to_N (48 + d)).

(** The decimal digits of a natural number, most significant first. *)
Fixpoint digits_fuel (fuel : nat) (n : Z) (acc : string) : string :=
  match fuel with
  | O => acc
  | S f =>
      let acc' := String (digit_char (n mod 10)) acc in
      if n <? 10 then acc' else digits_fuel f (n / 10) acc'
  end.

(** [str(n)] for an integer. *)
Definition str_of_Z (n : Z) : string :=
  if n <? 0 then String "-" (digits_fuel (S (Z.to_nat (Z.log2 (- n)))) (- n) EmptyString)
  else digits_fuel (S (Z.to_nat (Z.log2 n))) n EmptyString.

(** [format(n, '02d')]: sign-aware zero padding to width two. *)
Definition fmt02 (n : Z) : string :=
  if (0 <=? n) && (n <? 10) then String "0" (str_of_Z n) else str_of_Z n.

End PyStr.

Import PyStr.

(** ** Regular expressions of the script *)

Module Regex.

Definition is_quote (c : ascii) : bool :=
  Ascii.eqb c dquote || Ascii.eqb c squote.

(** [p] matches at the start of [s] under [re.IGNORECASE]; [p] is in
    lower case. *)
Fixpoint startswith_ci (s p : string) {struct p} : bool :=
  match p, s with
  | EmptyString, _ => true
  | String a p', String b s' => Ascii.eqb a (lower_char b) && startswith_ci s' p'
  | String _ _, EmptyString => false
  end.

(** The longest prefix without a quote, and what follows it. *)
Fixpoint span_nonquote (s : string) : string * string :=
  match s with
  | EmptyString => (EmptyString, EmptyString)
  | String c s' =>
      if is_quote c then (EmptyString, s)
      else let (a, b) := span_nonquote s' in (String c a, b)
  end.

(** The script's pattern for the src attribute (the letters src, an
    equals sign, a quote of either kind, one or more characters that are
    not quotes as group 1, a quote of either kind) matched at the start
    of [s]: group 1.  The greedy class takes every character up to the
    next quote, which must exist; a shorter choice would be followed by a
    character of the class, so no backtracking succeeds. *)
Definition match_src_here (s : string) : option string :=
  if startswith_ci s "src=" then
    match drop 4 s with
    | String q rest =>
        if is_quote q then
          match span_nonquote rest with
          | (String c u, String _ _) => Some (String c u)
          | _ => None
          end
        else None
    | EmptyString => None
    end
  else None.

(** [re.search] of that pattern under [re.IGNORECASE]: group 1 of the
    leftmost match. *)
Fixpoint re_search_src (s : string) : option string :=
  match match_src_here s with
  | Some u => Some u
  | None =>
      match s with
      | EmptyString => None
      | String _ s' => re_search_src s'
      end
  end.

(** The class [[a-zA-Z0-9_-]]. *)
Definition is_id_char (c : ascii) : bool :=
  let n := code c in
  (((97 <=? n) && (n <=? 122)) || ((65 <=? n) && (n <=? 90))
   || ((48 <=? n) && (n <=? 57)) || (n =? 95) || (n =? 45))%N.

Fixpoint take_id (s : string) : string :=
  match s with
  | EmptyString => EmptyString
  | String c s' => if is_id_char c then String c (take_id s') else EmptyString
  end.

Definition match_id_here (lit s : string) : option string :=
  if startswith s lit then
    match take_id (drop (String.length lit) s) with
    | EmptyString => None
    | u => Some u
    end
  else None.

(** [re.search(prefix? lit ([a-zA-Z0-9_-]+), s)]: group 1 of the leftmost
    match.  The optional, non-capturing prefixes of the script's patterns
    ([https?://], [www.], [m.]) only move the start of the match: none of
    them holds the first letter of [lit], so the leftmost match is the one
    of the leftmost occurrence of [lit] that an identifier follows. *)
Fixpoint re_search_id (lit s : string) : option string :=
  match match_id_here lit s with
  | Some u => Some u
  | None =>
      match s with
      | EmptyString => None
      | String _ s' => re_search_id lit s'
      end
  end.

End Regex.

Import Regex.

(** ** Text normalization *)

Definition PREFER_HOST : string :=
  "https://teacher.musicdott.com/groovescribe/GrooveEmbed.html".

Definition iframe_open : string :=
  Eval cbv in
    ("<iframe width=" +:+ dq +:+ "100%" +:+ dq +:+ " height=" +:+ dq +:+ "240"
     +:+ dq +:+ " src=" +:+ dq).

Definition iframe_close : string :=
  Eval cbv in (dq +:+ " frameborder=" +:+ dq +:+ "0" +:+ dq +:+ "></iframe>").

(** The canonical embed: an iframe of width 100% and height 240 whose src
    is [PREFER_HOST], a question mark and the query, with frameborder 0. *)
Definition canonical_iframe (query : string) : string :=
  iframe_open +:+ PREFER_HOST +:+ "?" +:+ query +:+ iframe_close.

Definition normalize_groovescribe (input_str : string) : string :=
  if String.eqb input_str EmptyString
     || String.eqb (lower (strip input_str)) "nan"
  then EmptyString
  else
    let s := strip input_str in
    if startswith s "<iframe" then
      (* Case 1: already an iframe *)
      match re_search_src s with
      | Some src_url =>
          let query :=
            if contains "?" src_url then item1 (split1 "?" src_url)
            else if contains "TimeSig=" src_url
                 then "TimeSig=" +:+ item1 (split1 "TimeSig=" src_url)
                 else EmptyString in
          if truthy query then canonical_iframe query else s
      | None => s
      end
    else if startswith s "http" then
      (* Case 2: full URL *)
      let query :=
        if contains "?" s then item1 (split1 "?" s)
        else if contains "TimeSig=" s
             then "TimeSig=" +:+ item1 (split1 "TimeSig=" s)
             else EmptyString in
      if truthy query then canonical_iframe query else s
    else if startswith s "?TimeSig=" || startswith s "TimeSig=" then
      (* Case 3: bare query *)
      let query := if startswith s "?" then drop 1 s else s in
      canonical_iframe query
    else s.

Definition youtube_patterns : list string :=
  [ "youtube.com/watch?v="; "youtu.be/"; "youtube.com/shorts/";
    "youtube.com/watch?v=" ].

Definition youtube_iframe (video_id : string) : string :=
  "<iframe width=" +:+ dq +:+ "560" +:+ dq +:+ " height=" +:+ dq +:+ "315" +:+ dq
  +:+ " src=" +:+ dq +:+ "https://www.youtube.com/embed/" +:+ video_id +:+ dq
  +:+ " title=" +:+ dq +:+ "YouTube video player" +:+ dq
  +:+ " frameborder=" +:+ dq +:+ "0" +:+ dq
  +:+ " allow=" +:+ dq
  +:+ "accelerometer; autoplay; clipboard-write; encrypted-media; gyroscope; picture-in-picture; web-share"
  +:+ dq +:+ " referrerpolicy=" +:+ dq +:+ "strict-origin-when-cross-origin" +:+ dq
  +:+ " allowfullscreen></iframe>".

(** The [for pattern in youtube_patterns] loop. *)
Fixpoint first_youtube_match (patterns : list string) (s : string) : option string :=
  match patterns with
  | [] => None
  | lit :: rest =>
      match re_search_id lit s with
      | Some video_id => Some video_id
      | None => first_youtube_match rest s
      end
  end.

Definition youtube_url_to_iframe (url : string) : string :=
  if String.eqb url EmptyString || String.eqb (lower (strip url)) "nan"
  then EmptyString
  else
    let s := strip url in
    match first_youtube_match youtube_patterns s with
    | Some video_id => youtube_iframe video_id
    | None => s
    end.

(** ** Dates *)

Module PyDate.

(** A [datetime]: the proleptic Gregorian ordinal of its date (day 1 is
    0001-01-01) and the microseconds since midnight. *)
Record datetime := { toordinal : Z; time_of_day : Z }.

(** [datetime.max.toordinal()], the ordinal of 9999-12-31. *)
Definition MAXORDINAL : Z := 3652059.

(** [d.weekday()]: Monday is 0. *)
Definition weekday (d : datetime) : Z := (toordinal d + 6) mod 7.

(** [d + timedelta(days=n)]: [None] stands for [OverflowError]. *)
Definition add_days (d : datetime) (n : Z) : option datetime :=
  let o := toordinal d + n in
  if (1 <=? o) && (o <=? MAXORDINAL)
  then Some {| toordinal := o; time_of_day := time_of_day d |}
  else None.

Definition days_before_month : list Z :=
  [-1; 0; 31; 59; 90; 120; 151; 181; 212; 243; 273; 304; 334].
Definition days_in_month : list Z :=
  [-1; 31; 28; 31; 30; 31; 30; 31; 31; 30; 31; 30; 31].

Definition b2z (b : bool) : Z := if b then 1 else 0.

(** The library's conversion of an ordinal to year, month and day. *)
Definition ord2ymd (ord : Z) : Z * Z * Z :=
  let n := ord - 1 in
  let n400 := n / 146097 in
  let n := n mod 146097 in
  let year := n400 * 400 + 1 in
  let n100 := n / 36524 in
  let n := n mod 36524 in
  let n4 := n / 1461 in
  let n := n mod 1461 in
  let n1 := n / 365 in
  let n := n mod 365 in
  let year := year + n100 * 100 + n4 * 4 + n1 in
  if (n1 =? 4) || (n100 =? 4) then (year - 1, 12, 31)
  else
    let leapyear := (n1 =? 3) && (negb (n4 =? 24) || (n100 =? 3)) in
    let month := Z.shiftr (n + 50) 5 in
    let preceding :=
      nth (Z.to_nat month) days_before_month 0
      + b2z ((2 <? month) && leapyear) in
    if n <? preceding then
      let month := month - 1 in
      let preceding :=
        preceding
        - (nth (Z.to_nat month) days_in_month 0
           + b2z ((month =? 2) && leapyear)) in
      (year, month, n - preceding + 1)
    else (year, month, n - preceding + 1).

(** [d.strftime('%Y%m%d')]; the year is printed as the C library prints
    it, which pads it to four digits only from the year 1000 on. *)
Definition strftime_Ymd (d : datetime) : string :=
  let '(y, m, dd) := ord2ymd (toordinal d) in
  str_of_Z y +:+ fmt02 m +:+ fmt02 dd.

End PyDate.

Import PyDate.

(** ** Rows, records and the world the script runs in *)

(** A row of [csv.DictReader]: a dictionary from the header's names to the
    row's fields; a short row maps its missing names to [None]. *)
Abbreviation row := (gmap string (option string)).

Record song := {
  song_title : string;
  song_artist : string;
  song_instrument : string;
  song_level : string;
  song_description : string;
  song_content : string
}.

Record lesson := {
  lesson_title : string;
  lesson_description : string;
  lesson_contentType : string;
  lesson_instrument : string;
  lesson_level : string;
  lesson_content : string
}.

Record student := {
  student_id : string;
  student_firstName : string;
  student_lastName : string;
  student_fullName : string;
  student_email : option string;
  student_phone : option string;
  student_city : option string;
  student_notes : option string;
  student_instrument : string
}.

Record ical := { DTSTART : string; TZID : string; RRULE : string }.

Record schedule_entry := {
  entry_studentId : string;
  entry_studentName : string;
  entry_email : string;
  entry_dayOfWeek : string;
  entry_startTime : string;
  entry_durationMin : Z;
  entry_timezone : string;
  entry_frequency : string;
  entry_ical : ical;
  entry_notes : option string
}.

Inductive exn_class :=
| UnicodeDecodeError | OSError | CsvError | ValueError | OverflowError
| PlainException.

Record exn := { exn_kind : exn_class; exn_text : string }.

Inductive result (A : Type) := Ok (a : A) | Raise (e : exn).
Arguments Ok {A} a.
Arguments Raise {A} e.

(** What a run reads from outside: the outcome of opening and reading a
    file in an encoding, the rows [csv.DictReader] yields for a text (and
    the error that ends the iteration, if one does), and the clock, as the
    value of each successive call of [datetime.now()]. *)
Record World := {
  open_read : string -> string -> result string;
  DictReader : string -> list row * option exn;
  now : nat -> datetime
}.

(** ** A state and exception monad *)

Definition M (S A : Type) : Type := S -> result A * S.

Definition ret {S A} (a : A) : M S A := fun st => (Ok a, st).

Definition bind {S A B} (m : M S A) (k : A -> M S B) : M S B :=
  fun st =>
    match m st with
    | (Ok a, st') => k a st'
    | (Raise e, st') => (Raise e, st')
    end.

Definition raise {S A} (e : exn) : M S A := fun st => (Raise e, st).

(** [try: body except Exception as e: handler]: what [body] did to the
    state before it raised stays done. *)
Definition try_except {S A} (body : M S A) (handler : exn -> M S A) : M S A :=
  fun st =>
    match body st with
    | (Ok a, st') => (Ok a, st')
    | (Raise e, st') => handler e st'
    end.

Definition modify {S} (f : S -> S) : M S unit := fun st => (Ok tt, f st).

Declare Scope py_scope.
Delimit Scope py_scope with py.
Notation "x <- m ;; k" := (bind m (fun x => k))
  (at level 100, m at next level, right associativity) : py_scope.
Notation "m ;;; k" := (bind m (fun _ => k))
  (at level 100, right associativity) : py_scope.
Local Open Scope py_scope.

(** [for row_num, row in enumerate(reader, row_num)] *)
Fixpoint for_rows {S} (body : Z -> row -> M S unit) (row_num : Z)
    (rows : list row) : M S unit :=
  match rows with
  | [] => ret tt
  | r :: rest => body row_num r ;;; for_rows body (row_num + 1) rest
  end.

(** A [for] loop over a list. *)
Fixpoint for_each {S A} (body : A -> M S unit) (l : list A) : M S unit :=
  match l with
  | [] => ret tt
  | a :: rest => body a ;;; for_each body rest
  end.

(** ** Reading the file *)

Definition safe_get (r : row) (key : string) (default : string) : string :=
  match r !! key with
  | Some (Some value) =>
      if String.eqb (lower (strip value)) "nan" then default else strip value
  | Some None => default
  | None =>
      (* [row.get] returns the default itself *)
      if String.eqb (lower (strip default)) "nan" then default else strip default
  end.

Definition encodings : list string := ["utf-8"; "latin-1"; "cp1252"; "iso-8859-1"].

Definition is_decode_error (e : exn) : bool :=
  match exn_kind e with UnicodeDecodeError => true | _ => false end.

(** The three converters share the text of their reading and of their two
    [try] statements word for word; they differ in the body of the loop
    over the rows and in their messages, the parameters here.  The state
    [S] of a converter holds its result lists and the standard output.
    [csv.field_size_limit] only sets the reader, which is part of the
    world. *)
Section Reading.
Context {S : Type}.
(** What [print] does to the state: a line more on the standard output. *)
Variable put : string -> S -> S.
Variable w : World.

Definition print (line : string) : M S unit := modify (put line).

(** The loop over the encodings: the text of the first one that decodes,
    [None] when the loop ends without one. *)
Fixpoint read_any (csv_file : string) (encs : list string) : M S (option string) :=
  match encs with
  | [] => ret None
  | encoding :: rest =>
      match open_read w csv_file encoding with
      | Ok csv_data =>
          print ("Successfully read " +:+ csv_file +:+ " with " +:+ encoding
                 +:+ " encoding") ;;;
          ret (Some csv_data)
      | Raise e =>
          if is_decode_error e then read_any csv_file rest else raise e
      end
  end.

(** The body of the loop over the rows, in its [try]: an exception is
    answered by a warning. *)
Definition guarded (body : Z -> row -> M S unit)
    (warning : Z -> exn -> string) (row_num : Z) (r : row) : M S unit :=
  try_except (body row_num r) (fun e => print (warning row_num e)).

(** From the opening of the file to the end of the loop over the rows:
    the body of a converter's outer [try]. *)
Definition read_and_convert (csv_file : string) (body : Z -> row -> M S unit)
    (warning : Z -> exn -> string) : M S unit :=
  csv_data <- read_any csv_file encodings ;;
  match csv_data with
  | None =>
      raise {| exn_kind := PlainException;
               exn_text := "Could not read " +:+ csv_file
                           +:+ " with any supported encoding" |}
  | Some text =>
      let (rows, reader_error) := DictReader w text in
      for_rows (guarded body warning) 1 rows ;;;
      match reader_error with
      | Some e => raise e
      | None => ret tt
      end
  end.

(** A converter: the outer [try] and its handler. *)
Definition converter (csv_file : string) (body : Z -> row -> M S unit)
    (warning : Z -> exn -> string) (error : exn -> string) : M S unit :=
  try_except (read_and_convert csv_file body warning)
    (fun e => print (error e)).

End Reading.

(** ** Songs *)

Record songs_state := { songs : list song; songs_stdout : list string }.

Definition songs_put (line : string) (st : songs_state) : songs_state :=
  {| songs := songs st; songs_stdout := songs_stdout st ++ [line] |}.

Definition songs_append (s : song) : M songs_state unit :=
  modify (fun st => {| songs := songs st ++ [s]; songs_stdout := songs_stdout st |}).

(** [safe_get(row, a) or safe_get(row, b)] *)
Definition get2 (r : row) (a b : string) : string :=
  or_else (safe_get r a EmptyString) (safe_get r b EmptyString).

(** One turn of the loop over the three notation columns. *)
Definition song_notation (r : row) (i : Z) : list string :=
  let notation :=
    get2 r ("soNotatie0" +:+ str_of_Z i) ("notatie0" +:+ str_of_Z i) in
  if truthy notation then
    let normalized_groove := normalize_groovescribe notation in
    if truthy normalized_groove then
      let remarks :=
        get2 r ("soOpmerkingen0" +:+ str_of_Z i) ("opmerkingen0" +:+ str_of_Z i) in
      normalized_groove :: (if truthy remarks then ["Note: " +:+ remarks] else [])
    else []
  else [].

Definition song_of_row (row_num : Z) (r : row) : song :=
  let title :=
    or_else (get2 r "soTitel" "titel") ("Song #" +:+ str_of_Z row_num) in
  let artist := or_else (get2 r "soArtiest" "artiest") "Unknown Artist" in
  let genre := get2 r "soGenre" "genre" in
  let bpm := get2 r "soBPM" "bpm" in
  let length := get2 r "soLengte" "lengte" in
  let desc_parts :=
    (if truthy genre && negb (String.eqb genre "0") then ["Genre: " +:+ genre] else [])
    ++ (if truthy bpm && negb (String.eqb bpm "0") then ["BPM: " +:+ bpm] else [])
    ++ (if truthy length && negb (String.eqb length "0")
        then ["Lengte: " +:+ length] else []) in
  let description :=
    match desc_parts with [] => EmptyString | _ => join " | " desc_parts end in
  let youtube := get2 r "soYouTube" "youtube" in
  let spotify := get2 r "soSpotify" "spotify" in
  let apple := get2 r "soAppleMusic" "apple_music" in
  let lyrics := get2 r "soLyrics" "lyrics" in
  let content_parts :=
    (if truthy youtube then
       let iframe := youtube_url_to_iframe youtube in
       if truthy iframe then [iframe] else []
     else [])
    ++ (if truthy spotify then ["Spotify: " +:+ spotify] else [])
    ++ (if truthy apple then ["Apple Music: " +:+ apple] else [])
    ++ (if truthy lyrics then ["Lyrics: " +:+ lyrics] else [])
    ++ song_notation r 1 ++ song_notation r 2 ++ song_notation r 3 in
  {| song_title := title;
     song_artist := artist;
     song_instrument := "drums";
     song_level := "all";
     song_description := description;
     song_content := join (nl +:+ nl) content_parts |}.

(** The body of the loop: build the song, append it.  On a row of
    [csv.DictReader], whose fields are strings or [None], no statement
    before the [append] raises. *)
Definition song_row (row_num : Z) (r : row) : M songs_state unit :=
  songs_append (song_of_row row_num r).

Definition song_warning (row_num : Z) (e : exn) : string :=
  "Warning: Error processing song row " +:+ str_of_Z row_num +:+ ": " +:+ exn_text e.

Definition song_error (e : exn) : string :=
  "Error reading songs CSV: " +:+ exn_text e.

Definition songs_run (w : World) (csv_file : string) : songs_state :=
  snd (converter songs_put w csv_file song_row song_warning song_error
         {| songs := []; songs_stdout := [] |}).

(** [convert_songs_csv_to_json(csv_file)]: the list it returns. *)
Definition convert_songs_csv_to_json (w : World) (csv_file : string) : list song :=
  songs (songs_run w csv_file).

(** ** Notation patterns *)

Record lessons_state := { lessons : list lesson; lessons_stdout : list string }.

Definition lessons_put (line : string) (st : lessons_state) : lessons_state :=
  {| lessons := lessons st; lessons_stdout := lessons_stdout st ++ [line] |}.

Definition lessons_append (l : lesson) : M lessons_state unit :=
  modify (fun st =>
    {| lessons := lessons st ++ [l]; lessons_stdout := lessons_stdout st |}).

(** The en dash U+2013 of the title, in its UTF-8 bytes. *)
Definition en_dash : string :=
  String "226"%char (String "128"%char (String "147"%char EmptyString)).

Definition lesson_of_row (row_num : Z) (r : row) : lesson :=
  let category := get2 r "noCategorie" "categorie" in
  let chapter := get2 r "noHoofdstuk" "hoofdstuk" in
  let sequence := get2 r "noVolgnummer" "volgnummer" in
  let title :=
    if truthy category && truthy chapter && truthy sequence then
      category +:+ " " +:+ en_dash +:+ " " +:+ chapter +:+ " " +:+ en_dash
      +:+ " #" +:+ sequence
    else if truthy category && truthy sequence then
      category +:+ " " +:+ en_dash +:+ " #" +:+ sequence
    else "Pattern #" +:+ str_of_Z row_num in
  let description := get2 r "noOpmerkingen" "opmerkingen" in
  let notation := get2 r "noNotatie" "notatie" in
  let video := get2 r "noVideo" "video" in
  let musescore := get2 r "noMusescore" "musescore" in
  let musicxml := safe_get r "musicxml" EmptyString in
  let pdf_lesson := get2 r "noPDFlesson" "pdf_lesson" in
  let mp3 := get2 r "noMP3" "mp3" in
  let content_parts :=
    (if truthy notation then
       let normalized_groove := normalize_groovescribe notation in
       if truthy normalized_groove then [normalized_groove] else []
     else [])
    ++ (if truthy video then
          let iframe := youtube_url_to_iframe video in
          if truthy iframe then ["Video: " +:+ iframe] else []
        else [])
    ++ (if truthy musescore then ["MuseScore: " +:+ musescore] else [])
    ++ (if truthy musicxml then ["MusicXML: " +:+ musicxml] else [])
    ++ (if truthy pdf_lesson then ["PDF: " +:+ pdf_lesson] else [])
    ++ (if truthy mp3 then ["MP3: " +:+ mp3] else []) in
  {| lesson_title := title;
     lesson_description := description;
     lesson_contentType := "notation";
     lesson_instrument := "drums";
     lesson_level := "all";
     lesson_content := join (nl +:+ nl) content_parts |}.

Definition lesson_row (row_num : Z) (r : row) : M lessons_state unit :=
  lessons_append (lesson_of_row row_num r).

Definition lesson_warning (row_num : Z) (e : exn) : string :=
  "Warning: Error processing notation row " +:+ str_of_Z row_num +:+ ": "
  +:+ exn_text e.

Definition lesson_error (e : exn) : string :=
  "Error reading notation CSV: " +:+ exn_text e.

Definition lessons_run (w : World) (csv_file : string) : lessons_state :=
  snd (converter lessons_put w csv_file lesson_row lesson_warning lesson_error
         {| lessons := []; lessons_stdout := [] |}).

(** [convert_notatie_csv_to_json(csv_file)]: the list it returns. *)
Definition convert_notatie_csv_to_json (w : World) (csv_file : string) : list lesson :=
  lessons (lessons_run w csv_file).

(** ** Students and their schedule *)

Record students_state := {
  students : list student;
  schedule : list schedule_entry;
  students_stdout : list string;
  clock_calls : nat
}.

Definition students_put (line : string) (st : students_state) : students_state :=
  {| students := students st; schedule := schedule st;
     students_stdout := students_stdout st ++ [line];
     clock_calls := clock_calls st |}.

Definition students_append (s : student) : M students_state unit :=
  modify (fun st =>
    {| students := students st ++ [s]; schedule := schedule st;
       students_stdout := students_stdout st;
       clock_calls := clock_calls st |}).

Definition schedule_append (e : schedule_entry) : M students_state unit :=
  modify (fun st =>
    {| students := students st; schedule := schedule st ++ [e];
       students_stdout := students_stdout st;
       clock_calls := clock_calls st |}).

(** [datetime.now()]: the clock's next value. *)
Definition datetime_now (w : World) : M students_state datetime :=
  fun st =>
    (Ok (now w (clock_calls st)),
     {| students := students st; schedule := schedule st;
        students_stdout := students_stdout st;
        clock_calls := Datatypes.S (clock_calls st) |}).

Definition day_mapping : gmap string string :=
  list_to_map
    [ ("ma", "MO"); ("maandag", "MO"); ("monday", "MO");
      ("di", "TU"); ("dinsdag", "TU"); ("tuesday", "TU");
      ("wo", "WE"); ("woensdag", "WE"); ("wednesday", "WE");
      ("do", "TH"); ("donderdag", "TH"); ("thursday", "TH");
      ("vr", "FR"); ("vrijdag", "FR"); ("friday", "FR");
      ("za", "SA"); ("zaterdag", "SA"); ("saturday", "SA");
      ("zo", "SU"); ("zondag", "SU"); ("sunday", "SU") ].

Definition day_codes : list string := ["MO"; "TU"; "WE"; "TH"; "FR"; "SA"; "SU"].

(** [l.index(x)]: [None] stands for [ValueError]. *)
Fixpoint index_of (x : string) (l : list string) : option Z :=
  match l with
  | [] => None
  | y :: rest =>
      if String.eqb y x then Some 0 else option_map Z.succ (index_of x rest)
  end.

(** [value if value and value != 'nan' else None] *)
Definition none_if_blank (value : string) : option string :=
  if truthy value && negb (String.eqb value "nan") then Some value else None.

Definition student_of_row (row_num : Z) (r : row) : student :=
  let student_id := or_else (safe_get r "stid" EmptyString) (str_of_Z row_num) in
  let first_name := safe_get r "stVoornaam" EmptyString in
  let last_name := safe_get r "stNaam" EmptyString in
  let email := safe_get r "stEmail" EmptyString in
  let phone := get2 r "stTelefoonmobiel" "stTelefoonvast" in
  let city := safe_get r "stWoonplaats" EmptyString in
  let notes := safe_get r "stOpmerkingen" EmptyString in
  {| student_id := student_id;
     student_firstName := first_name;
     student_lastName := last_name;
     student_fullName := strip (first_name +:+ " " +:+ last_name);
     student_email := none_if_blank email;
     student_phone := none_if_blank phone;
     student_city := none_if_blank city;
     student_notes := none_if_blank notes;
     student_instrument := "drums" |}.

(** The [try] around the two [int] calls: hours, minutes and the start
    time, or [None] when the bare [except] continues the loop. *)
Definition parse_time (time_clean : string) : option (Z * Z * string) :=
  match split_char ":" time_clean with
  | [h; m] =>
      match py_int h, py_int m with
      | Some hours, Some minutes =>
          Some (hours, minutes, fmt02 hours +:+ ":" +:+ fmt02 minutes)
      | _, _ => None
      end
  | _ => None
  end.

(** The [try] around the duration: thirty minutes by default. *)
Definition parse_duration (duration_raw : string) : Z :=
  if truthy duration_raw && negb (String.eqb duration_raw "nan") then
    match py_int duration_raw with
    | Some d => d
    | None => 30
    end
  else 30.

Definition rrule (day_code : string) (hours minutes : Z) : string :=
  "FREQ=WEEKLY;BYDAY=" +:+ day_code +:+ ";BYHOUR=" +:+ str_of_Z hours
  +:+ ";BYMINUTE=" +:+ str_of_Z minutes +:+ ";BYSECOND=0".

Definition overflow_error : exn :=
  {| exn_kind := OverflowError; exn_text := "date value out of range" |}.

(** One turn of the loop [for i in [1, 2]]; [ret tt] before the end is a
    [continue]. *)
Definition lesson_slot (w : World) (r : row) (st : student) (i : Z)
    : M students_state unit :=
  let email := safe_get r "stEmail" EmptyString in
  let notes := safe_get r "stOpmerkingen" EmptyString in
  let day_key := "stLesdag" +:+ str_of_Z i in
  let time_key := "stLestijd" +:+ str_of_Z i in
  let duration_key := "stLesduur" +:+ str_of_Z i in
  let day_raw := safe_get r day_key EmptyString in
  let time_raw := safe_get r time_key EmptyString in
  let duration_raw := safe_get r duration_key EmptyString in
  if negb (truthy day_raw) || negb (truthy time_raw)
     || String.eqb day_raw "nan" || String.eqb time_raw "nan"
  then ret tt
  else
    match day_mapping !! strip (lower day_raw) with
    | None => ret tt
    | Some day_code =>
        if negb (truthy day_code) then ret tt
        else
          let time_clean := replace_char "." ":" time_raw in
          if negb (contains ":" time_clean)
             || negb (Nat.eqb (length (split_char ":" time_clean)) 2)
          then ret tt
          else
            match parse_time time_clean with
            | None => ret tt
            | Some (hours, minutes, start_time) =>
                let duration_min := parse_duration duration_raw in
                today <- datetime_now w ;;
                match index_of day_code day_codes with
                | None =>
                    raise {| exn_kind := ValueError;
                             exn_text := "'" +:+ day_code +:+ "' is not in list" |}
                | Some position =>
                    let days_ahead := (position - weekday today) mod 7 in
                    let days_ahead :=
                      if days_ahead =? 0 then 7 else days_ahead in
                    match add_days today days_ahead with
                    | None => raise overflow_error
                    | Some next_occurrence =>
                        let dtstart :=
                          strftime_Ymd next_occurrence +:+ "T"
                          +:+ remove_char ":" start_time +:+ "00" in
                        schedule_append
                          {| entry_studentId := student_id st;
                             entry_studentName := student_fullName st;
                             entry_email := email;
                             entry_dayOfWeek := day_code;
                             entry_startTime := start_time;
                             entry_durationMin := duration_min;
                             entry_timezone := "Europe/Amsterdam";
                             entry_frequency := "WEEKLY";
                             entry_ical :=
                               {| DTSTART := dtstart;
                                  TZID := "Europe/Amsterdam";
                                  RRULE := rrule day_code hours minutes |};
                             entry_notes := none_if_blank notes |}
                    end
                end
            end
    end.

(** The body of the loop over the rows: the student is appended first,
    its lessons follow. *)
Definition student_row (w : World) (row_num : Z) (r : row) : M students_state unit :=
  let st := student_of_row row_num r in
  students_append st ;;;
  for_each (lesson_slot w r st) [1; 2].

Definition student_warning (row_num : Z) (e : exn) : string :=
  "Warning: Error processing student row " +:+ str_of_Z row_num +:+ ": "
  +:+ exn_text e.

Definition student_error (e : exn) : string :=
  "Error reading students CSV: " +:+ exn_text e.

Definition students_init : students_state :=
  {| students := []; schedule := []; students_stdout := []; clock_calls := O |}.

Definition students_run (w : World) (csv_file : string) : students_state :=
  snd (converter students_put w csv_file (student_row w) student_warning
         student_error students_init).

(** [convert_students_csv_to_json(csv_file)]: the pair it returns. *)
Definition convert_students_csv_to_json (w : World) (csv_file : string)
    : list student * list schedule_entry :=
  let st := students_run w csv_file in (students st, schedule st).

(** ** The command line *)

(** The options [argparse] returns: the path of each input, when given,
    and the output directory, [export] unless given. *)
Record Args := {
  args_songs : option string;
  args_notatie : option string;
  args_students : option string;
  args_outdir : string
}.

(** What [json.dump] writes to a file: the value dumped; its layout as
    text is the library's. *)
Inductive document :=
| SongsDoc (l : list song)
| LessonsDoc (l : list lesson)
| StudentsDoc (l : list student)
| ScheduleDoc (l : list schedule_entry).

(** The machine [main] runs on: the world of the converters, the paths
    that exist, and the exception, if any, that creating a directory
    ([os.makedirs] with [exist_ok]) or opening a file for writing raises. *)
Record Host := {
  host_world : World;
  path_exists : string -> bool;
  os_makedirs : string -> option exn;
  open_write : string -> option exn
}.

(** What [main] leaves behind: the directories made, the files written, in
    that order, and the standard output. *)
Record main_state := {
  made_dirs : list string;
  written : list (string * document);
  main_stdout : list string
}.

(** How [main] ends when no exception leaves it. *)
Inductive ending := Returned | SystemExit (code : Z).

Definition main_prints (lines : list string) : M main_state unit :=
  modify (fun st =>
    {| made_dirs := made_dirs st; written := written st;
       main_stdout := main_stdout st ++ lines |}).

Definition main_print (line : string) : M main_state unit := main_prints [line].

Definition makedirs (h : Host) (dir : string) : M main_state unit :=
  match os_makedirs h dir with
  | Some e => raise e
  | None =>
      modify (fun st =>
        {| made_dirs := made_dirs st ++ [dir]; written := written st;
           main_stdout := main_stdout st |})
  end.

(** [with open(path, 'w', encoding='utf-8') as f: json.dump(value, f, ...)] *)
Definition dump (h : Host) (path : string) (value : document) : M main_state unit :=
  match open_write h path with
  | Some e => raise e
  | None =>
      modify (fun st =>
        {| made_dirs := made_dirs st; written := written st ++ [(path, value)];
           main_stdout := main_stdout st |})
  end.

(** [s.endswith('/')] *)
Fixpoint ends_with_slash (s : string) : bool :=
  match s with
  | EmptyString => false
  | String c EmptyString => Ascii.eqb c "/"
  | String _ s' => ends_with_slash s'
  end.

(** [os.path.join(a, b)] of [posixpath], for a relative [b]. *)
Definition path_join (a b : string) : string :=
  if negb (truthy a) || ends_with_slash a then a +:+ b else a +:+ "/" +:+ b.

(** [len(l)] *)
Definition len {A : Type} (l : list A) : Z := Z.of_nat (length l).

(** [args.x and os.path.exists(args.x)]: the path to convert, if any. *)
Definition selected (h : Host) (arg : option string) : option string :=
  match arg with
  | Some path => if truthy path && path_exists h path then Some path else None
  | None => None
  end.

(** [not args.x] *)
Definition not_given (arg : option string) : bool :=
  match arg with
  | Some path => negb (truthy path)
  | None => true
  end.

(** The signs of the messages, in their UTF-8 bytes: the check mark
    U+2705, the party popper U+1F389, the clipboard U+1F4CB, the calendar
    U+1F4C5, the musical note U+1F3B5 and the books U+1F4DA. *)
Definition bytes (l : list ascii) : string := string_of_list_ascii l.
Definition check_mark : string := bytes ["226"; "156"; "133"]%char.
Definition party_popper : string := bytes ["240"; "159"; "142"; "137"]%char.
Definition clipboard : string := bytes ["240"; "159"; "147"; "139"]%char.
Definition calendar : string := bytes ["240"; "159"; "147"; "133"]%char.
Definition musical_note : string := bytes ["240"; "159"; "142"; "181"]%char.
Definition books : string := bytes ["240"; "159"; "147"; "154"]%char.

Definition main_songs (h : Host) (args : Args) : M main_state unit :=
  match selected h (args_songs args) with
  | Some path =>
      main_print ("Converting songs from " +:+ path +:+ "...") ;;;
      let run := songs_run (host_world h) path in
      main_prints (songs_stdout run) ;;;
      let output_file := path_join (args_outdir args) "musicdott2_songs.json" in
      dump h output_file (SongsDoc (songs run)) ;;;
      main_print (check_mark +:+ " Converted " +:+ str_of_Z (len (songs run))
                  +:+ " songs to " +:+ output_file)
  | None => ret tt
  end.

Definition main_notatie (h : Host) (args : Args) : M main_state unit :=
  match selected h (args_notatie args) with
  | Some path =>
      main_print ("Converting lessons from " +:+ path +:+ "...") ;;;
      let run := lessons_run (host_world h) path in
      main_prints (lessons_stdout run) ;;;
      let output_file := path_join (args_outdir args) "musicdott2_lessons.json" in
      dump h output_file (LessonsDoc (lessons run)) ;;;
      main_print (check_mark +:+ " Converted " +:+ str_of_Z (len (lessons run))
                  +:+ " lessons to " +:+ output_file)
  | None => ret tt
  end.

Definition main_students (h : Host) (args : Args) : M main_state unit :=
  match selected h (args_students args) with
  | Some path =>
      main_print ("Converting students and schedule from " +:+ path +:+ "...") ;;;
      let run := students_run (host_world h) path in
      main_prints (students_stdout run) ;;;
      let students_file := path_join (args_outdir args) "musicdott2_students.json" in
      dump h students_file (StudentsDoc (students run)) ;;;
      let schedule_file := path_join (args_outdir args) "musicdott2_schedule.json" in
      dump h schedule_file (ScheduleDoc (schedule run)) ;;;
      main_print (check_mark +:+ " Converted " +:+ str_of_Z (len (students run))
                  +:+ " students to " +:+ students_file) ;;;
      main_print (check_mark +:+ " Converted " +:+ str_of_Z (len (schedule run))
                  +:+ " schedule entries to " +:+ schedule_file)
  | None => ret tt
  end.

Definition usage_line : string :=
  "Please provide --songs, --notatie, and/or --students CSV files to convert".

Definition banner : list string :=
  [ party_popper +:+ " Complete MusicDott 1.0 to 2.0 conversion finished!";
    "   " +:+ clipboard +:+ " Students: musicdott2_students.json";
    "   " +:+ calendar +:+ " Schedule: musicdott2_schedule.json";
    "   " +:+ musical_note +:+ " Songs: musicdott2_songs.json";
    "   " +:+ books +:+ " Lessons: musicdott2_lessons.json" ].

(** [main()], after [parse_args]: an exception of [os.makedirs] or of a
    write leaves it, [sys.exit(1)] ends it when no input was given. *)
Definition main (h : Host) (args : Args) : M main_state ending :=
  makedirs h (args_outdir args) ;;;
  main_songs h args ;;;
  main_notatie h args ;;;
  main_students h args ;;;
  if not_given (args_songs args) && not_given (args_notatie args)
     && not_given (args_students args)
  then main_print usage_line ;;; ret (SystemExit 1)
  else for_each main_print banner ;;; ret Returned.

Definition main_init : main_state :=
  {| made_dirs := []; written := []; main_stdout := [] |}.

(** * The vocabulary of the statements *)

(** ** Strings *)

(** [sep] occurs in [u] after [pre] and before [post], and nowhere
    further left. *)
Definition first_split (sep u pre post : string) : Prop :=
  u = pre +:+ sep +:+ post
  /\ forall pre' post', u = pre' +:+ sep +:+ post' ->
                        (String.length pre <= String.length pre')%nat.

(** [s] is empty or starts with a character outside the class [p]. *)
Definition clean_head (p : ascii -> bool) (s : string) : Prop :=
  match s with
  | EmptyString => True
  | String c _ => p c = false
  end.

(** ** The Groovescribe normalization *)

(** The query the script takes from a URL: the text after the first
    question mark, else the text from the first TimeSig= on. *)
Definition extract_query (u : string) : string :=
  if contains "?" u then item1 (split1 "?" u)
  else if contains "TimeSig=" u
       then "TimeSig=" +:+ item1 (split1 "TimeSig=" u)
       else EmptyString.

(** The three cases of the function, on the trimmed input. *)
Definition groove_core (s : string) : string :=
  if startswith s "<iframe" then
    match re_search_src s with
    | Some src_url =>
        if truthy (extract_query src_url)
        then canonical_iframe (extract_query src_url) else s
    | None => s
    end
  else if startswith s "http" then
    if truthy (extract_query s) then canonical_iframe (extract_query s) else s
  else if startswith s "?TimeSig=" || startswith s "TimeSig=" then
    canonical_iframe (if startswith s "?" then drop 1 s else s)
  else s.

(** [s] holds neither quote character. *)
Fixpoint no_quote (s : string) : bool :=
  match s with
  | EmptyString => true
  | String c s' => negb (is_quote c) && no_quote s'
  end.

(** The query a URL carries: the text after its first question mark;
    without a question mark, the text from its first TimeSig= on. *)
Inductive query_of (u : string) : string -> Prop :=
| query_after_mark pre q :
    first_split "?" u pre q -> query_of u q
| query_from_timesig pre post :
    (forall a b, u <> a +:+ "?" +:+ b) ->
    first_split "TimeSig=" u pre post ->
    query_of u ("TimeSig=" +:+ post).

(** The Groovescribe variants, on the trimmed input [s], each with the
    query it carries: an iframe tag whose src attribute carries a query,
    a URL that carries one, a bare query with or without its question
    mark. *)
Inductive variant (s : string) : string -> Prop :=
| variant_iframe src_url q :
    startswith s "<iframe" = true -> re_search_src s = Some src_url ->
    query_of src_url q -> q <> EmptyString -> variant s q
| variant_url q :
    startswith s "http" = true -> query_of s q -> q <> EmptyString ->
    variant s q
| variant_bare_mark :
    startswith s "?TimeSig=" = true -> variant s (drop 1 s)
| variant_bare :
    startswith s "TimeSig=" = true -> variant s s.

(** ** Runs of a converter *)

(** [enumerate(rows, n)] *)
Fixpoint enumerate (n : Z) (rows : list row) : list (Z * row) :=
  match rows with
  | [] => []
  | r :: rest => (n, r) :: enumerate (n + 1) rest
  end.

(** Every encoding tried before [encoding] fails to decode the file, and
    [encoding] decodes it to [text]. *)
Definition first_decoding (w : World) (csv_file encoding text : string) : Prop :=
  exists before after,
    encodings = before ++ encoding :: after
    /\ Forall (fun enc => exists e, open_read w csv_file enc = Raise e
                                    /\ exn_kind e = UnicodeDecodeError) before
    /\ open_read w csv_file encoding = Ok text.

(** No attempt to read the file succeeds. *)
Definition unreadable (w : World) (csv_file : string) : Prop :=
  Forall (fun enc => exists e, open_read w csv_file enc = Raise e) encodings.

(** The exception the script raises itself when no encoding is left. *)
Definition unreadable_error (csv_file : string) : exn :=
  {| exn_kind := PlainException;
     exn_text := "Could not read " +:+ csv_file +:+ " with any supported encoding" |}.

(** How the loop over the encodings ends: with the first encoding that
    decodes the file and its text, with an exception that is no decoding
    error, or with no encoding left. *)
Inductive reading :=
| Decoded (encoding text : string)
| Failed (e : exn)
| Exhausted.

Fixpoint decode_any (w : World) (csv_file : string) (encs : list string) : reading :=
  match encs with
  | [] => Exhausted
  | enc :: rest =>
      match open_read w csv_file enc with
      | Ok text => Decoded enc text
      | Raise e => if is_decode_error e then decode_any w csv_file rest else Failed e
      end
  end.

(** The rows a run converts: those the reader yields for the decoded text;
    none when the reading fails. *)
Definition input_rows (w : World) (csv_file : string) : list row :=
  match decode_any w csv_file encodings with
  | Decoded _ text => fst (DictReader w text)
  | _ => []
  end.

(** The state after the loop over the rows. *)
Definition after_rows {S : Type} (put : string -> S -> S)
    (body : Z -> row -> M S unit) (warning : Z -> exn -> string)
    (rows : list row) (st : S) : S :=
  snd (for_rows (guarded put body warning) 1 rows st).

(** The line printed after a successful reading. *)
Definition read_line (csv_file enc : string) : string :=
  "Successfully read " +:+ csv_file +:+ " with " +:+ enc +:+ " encoding".

(** One record per row, in the order of the rows, numbered from [n]. *)
Definition songs_of_rows (n : Z) (rows : list row) : list song :=
  map (fun nr => song_of_row (fst nr) (snd nr)) (enumerate n rows).

Definition lessons_of_rows (n : Z) (rows : list row) : list lesson :=
  map (fun nr => lesson_of_row (fst nr) (snd nr)) (enumerate n rows).

Definition students_of_rows (n : Z) (rows : list row) : list student :=
  map (fun nr => student_of_row (fst nr) (snd nr)) (enumerate n rows).

(** Two worlds with the same files and the same reader. *)
Definition same_input (w1 w2 : World) : Prop :=
  (forall csv_file enc, open_read w1 csv_file enc = open_read w2 csv_file enc)
  /\ (forall text, DictReader w1 text = DictReader w2 text).

(** ** The lessons of a student row *)

(** The day, the time and the duration of the lesson in slot [i]. *)
Definition slot_day (r : row) (i : Z) : string :=
  safe_get r ("stLesdag" +:+ str_of_Z i) EmptyString.

Definition slot_time (r : row) (i : Z) : string :=
  safe_get r ("stLestijd" +:+ str_of_Z i) EmptyString.

Definition slot_duration (r : row) (i : Z) : string :=
  safe_get r ("stLesduur" +:+ str_of_Z i) EmptyString.

(** The lesson a row plans in its slot [i]: the code of its day, when the
    table has the day's name, and the two integers of its time, when the
    time is two integers around a colon or a full stop. *)
Definition slot_plan (r : row) (i : Z) : option (string * Z * Z) :=
  match day_mapping !! strip (lower (slot_day r i)) with
  | Some code =>
      match split_char ":" (replace_char "." ":" (slot_time r i)) with
      | [a; b] =>
          match py_int a, py_int b with
          | Some h, Some m => Some (code, h, m)
          | _, _ => None
          end
      | _ => None
      end
  | None => None
  end.

(** The state after one more call of the clock. *)
Definition tick (s : students_state) : students_state :=
  {| students := students s; schedule := schedule s;
     students_stdout := students_stdout s;
     clock_calls := Datatypes.S (clock_calls s) |}.

(** The state after [schedule.append(e)]. *)
Definition add_entry (e : schedule_entry) (s : students_state) : students_state :=
  {| students := students s; schedule := schedule s ++ [e];
     students_stdout := students_stdout s; clock_calls := clock_calls s |}.

(** The state in which the lessons of a row are processed: its student
    is in the list. *)
Definition with_student (st : student) (s : students_state) : students_state :=
  {| students := students s ++ [st]; schedule := schedule s;
     students_stdout := students_stdout s; clock_calls := clock_calls s |}.

(** The days from [today] to the next lesson on the day at [position] of
    the week: seven when that day is today's. *)
Definition days_ahead (position : Z) (today : datetime) : Z :=
  if (position - weekday today) mod 7 =? 0 then 7
  else (position - weekday today) mod 7.

(** The entry of a planned lesson whose next occurrence is [next]. *)
Definition slot_entry (st : student) (r : row) (i : Z) (code : string)
    (h m : Z) (next : datetime) : schedule_entry :=
  {| entry_studentId := student_id st;
     entry_studentName := student_fullName st;
     entry_email := safe_get r "stEmail" EmptyString;
     entry_dayOfWeek := code;
     entry_startTime := fmt02 h +:+ ":" +:+ fmt02 m;
     entry_durationMin := parse_duration (slot_duration r i);
     entry_timezone := "Europe/Amsterdam";
     entry_frequency := "WEEKLY";
     entry_ical :=
       {| DTSTART := strftime_Ymd next +:+ "T"
                     +:+ remove_char ":" (fmt02 h +:+ ":" +:+ fmt02 m) +:+ "00";
          TZID := "Europe/Amsterdam";
          RRULE := "FREQ=WEEKLY;BYDAY=" +:+ code +:+ ";BYHOUR=" +:+ str_of_Z h
                   +:+ ";BYMINUTE=" +:+ str_of_Z m +:+ ";BYSECOND=0" |};
     entry_notes := none_if_blank (safe_get r "stOpmerkingen" EmptyString) |}.

(** [e] is an entry of row [r], numbered [n]: the entry of one of its two
    slots, for some date of the next occurrence. *)
Definition from_row (n : Z) (r : row) (e : schedule_entry) : Prop :=
  exists i code h m next,
    (i = 1 \/ i = 2) /\ slot_plan r i = Some (code, h, m)
    /\ e = slot_entry (student_of_row n r) r i code h m next.

(** A date from which the next seven days exist. *)
Definition date_in_range (d : datetime) : Prop :=
  1 <= toordinal d <= MAXORDINAL - 7.

(** Every call of the clock returns such a date. *)
Definition clock_ok (w : World) : Prop := forall k, date_in_range (now w k).

(** An entry without its DTSTART. *)
Definition blank_dtstart (e : schedule_entry) : schedule_entry :=
  {| entry_studentId := entry_studentId e;
     entry_studentName := entry_studentName e;
     entry_email := entry_email e;
     entry_dayOfWeek := entry_dayOfWeek e;
     entry_startTime := entry_startTime e;
     entry_durationMin := entry_durationMin e;
     entry_timezone := entry_timezone e;
     entry_frequency := entry_frequency e;
     entry_ical := {| DTSTART := EmptyString;
                      TZID := TZID (entry_ical e);
                      RRULE := RRULE (entry_ical e) |};
     entry_notes := entry_notes e |}.

(** Two states with the same students, the same output and the same
    entries but for DTSTART. *)
Definition same_but_dtstart (s1 s2 : students_state) : Prop :=
  students s1 = students s2
  /\ map blank_dtstart (schedule s1) = map blank_dtstart (schedule s2)
  /\ students_stdout s1 = students_stdout s2.

(** The row has no usable field under [key]: the column is missing, the
    row is too short for it, or the field is empty or nan once trimmed. *)
Definition blank_field (r : row) (key : string) : Prop :=
  match r !! key with
  | Some (Some value) => strip value = EmptyString \/ lower (strip value) = "nan"
  | _ => True
  end.

(** ** Sample rows and worlds *)

(** Two exceptions of [open] and [read]. *)
Definition decode_error : exn :=
  {| exn_kind := UnicodeDecodeError; exn_text := "invalid start byte" |}.

Definition missing_file : exn :=
  {| exn_kind := OSError; exn_text := "[Errno 2] No such file or directory" |}.

(** A world whose file decodes as latin-1, not as utf-8, whose reader
    yields [rows], and whose clock stands on the day of ordinal [day]. *)
Definition world_of (rows : list row) (day : Z) : World :=
  {| open_read := fun _ enc =>
       if String.eqb enc "utf-8" then Raise decode_error else Ok "text";
     DictReader := fun _ => (rows, None);
     now := fun _ => {| toordinal := day; time_of_day := 0 |} |}.

(** A world whose file does not exist. *)
Definition world_without_file : World :=
  {| open_read := fun _ _ => Raise missing_file;
     DictReader := fun _ => ([], None);
     now := fun _ => {| toordinal := 738886; time_of_day := 0 |} |}.

(** Monday 2024-01-01, Tuesday 2024-01-02 and Thursday 9999-12-30. *)
Definition monday_2024 : Z := 738886.

Definition tuesday_2024 : Z := 738887.

Definition thursday_9999 : Z := 3652058.

(** A student with a lesson on Tuesday at 25.99 and one on Friday at 9:05. *)
Definition jan_row : row :=
  list_to_map
    [ ("stVoornaam", Some "Jan"); ("stNaam", Some "Smit");
      ("stLesdag1", Some "Dinsdag"); ("stLestijd1", Some "25.99");
      ("stLesdag2", Some "vr"); ("stLestijd2", Some "9:05");
      ("stLesduur2", Some "45") ].

(** A song row with neither title nor artist. *)
Definition untitled_row : row := list_to_map [ ("soBPM", Some "120") ].

(** ** More vocabulary: worlds, plans, identifiers *)

(** A world like [world_of] whose reader ends on an error after [rows]. *)
Definition csv_error : exn :=
  {| exn_kind := CsvError; exn_text := "field larger than field limit (1000000)" |}.

Definition world_broken (rows : list row) (day : Z) : World :=
  {| open_read := fun _ _ => Ok "text";
     DictReader := fun _ => (rows, Some csv_error);
     now := fun _ => {| toordinal := day; time_of_day := 0 |} |}.



(** An optional field of a student made from the row's field under
    [key]: absent exactly when the row has no usable field there, else the
    field, trimmed, not empty and not nan. *)
Definition optional_of (r : row) (key : string) (field : option string) : Prop :=
  (field = None <-> blank_field r key)
  /\ (forall v, field = Some v ->
                v = safe_get r key EmptyString /\ v <> EmptyString
                /\ strip v = v /\ lower v <> "nan").

(** Every character of [s] is a decimal digit. *)
Fixpoint all_digits (s : string) : bool :=
  match s with
  | EmptyString => true
  | String c s' => is_digit c && all_digits s'
  end.

(** The character [c] does not occur in [s]. *)
Fixpoint lacks (c : ascii) (s : string) : bool :=
  match s with
  | EmptyString => true
  | String d s' => negb (Ascii.eqb d c) && lacks c s'
  end.

(** Every character of [s] is of the class of video identifiers. *)
Fixpoint all_id (s : string) : bool :=
  match s with
  | EmptyString => true
  | String c s' => is_id_char c && all_id s'
  end.

(** Before its first character outside the class of identifiers, which it
    has, [lit] does not hold the character [q]. *)
Fixpoint blocked (lit : string) (q : ascii) : bool :=
  match lit with
  | EmptyString => false
  | String c l =>
      negb (Ascii.eqb c q) && (if is_id_char c then blocked l q else true)
  end.


(** The files a run of [main] is to write: one per input that is given
    and exists, two for the students, all in the output directory. *)
Definition songs_file (h : Host) (args : Args) : list (string * document) :=
  match selected h (args_songs args) with
  | Some path =>
      [(path_join (args_outdir args) "musicdott2_songs.json",
        SongsDoc (convert_songs_csv_to_json (host_world h) path))]
  | None => []
  end.

Definition lessons_file (h : Host) (args : Args) : list (string * document) :=
  match selected h (args_notatie args) with
  | Some path =>
      [(path_join (args_outdir args) "musicdott2_lessons.json",
        LessonsDoc (convert_notatie_csv_to_json (host_world h) path))]
  | None => []
  end.

Definition students_files (h : Host) (args : Args) : list (string * document) :=
  match selected h (args_students args) with
  | Some path =>
      let result := convert_students_csv_to_json (host_world h) path in
      [(path_join (args_outdir args) "musicdott2_students.json",
        StudentsDoc (fst result));
       (path_join (args_outdir args) "musicdott2_schedule.json",
        ScheduleDoc (snd result))]
  | None => []
  end.

(** No input is named on the command line. *)
Definition no_input (args : Args) : Prop :=
  not_given (args_songs args) = true /\ not_given (args_notatie args) = true
  /\ not_given (args_students args) = true.

(** No named input exists. *)
Definition nothing_found (h : Host) (args : Args) : Prop :=
  selected h (args_songs args) = None /\ selected h (args_notatie args) = None
  /\ selected h (args_students args) = None.

(** A host on which the paths of [present] exist and nothing fails. *)
Definition host_of (w : World) (present : list string) : Host :=
  {| host_world := w;
     path_exists := fun path => existsb (String.eqb path) present;
     os_makedirs := fun _ => None;
     open_write := fun _ => None |}.

Definition read_only : exn :=
  {| exn_kind := OSError; exn_text := "[Errno 30] Read-only file system" |}.

(** A host like [host_of] on which no file can be written. *)
Definition host_read_only (w : World) (present : list string) : Host :=
  {| host_world := w;
     path_exists := fun path => existsb (String.eqb path) present;
     os_makedirs := fun _ => None;
     open_write := fun _ => Some read_only |}.

Definition args_of (songs notatie students : option string) : Args :=
  {| args_songs := songs; args_notatie := notatie; args_students := students;
     args_outdir := "export" |}.

(** A part of [main] that was to write [files] and ran from [st] to [out]
    wrote them all, in that order, or stopped on the exception of the
    first write that raised, with the files before it written. *)
Definition wrote {A} (h : Host) (files : list (string * document))
    (st : main_state) (out : result A * main_state) : Prop :=
  made_dirs (snd out) = made_dirs st
  /\ match fst out with
     | Ok _ => written (snd out) = written st ++ files
     | Raise e =>
         exists done path value rest,
           files = done ++ (path, value) :: rest
           /\ written (snd out) = written st ++ done
           /\ open_write h path = Some e
     end.

(** The state of [main] once the output directory is made. *)
Definition main_ready (args : Args) : main_state :=
  {| made_dirs := [args_outdir args]; written := []; main_stdout := [] |}.

(** Every encoding tried before [encoding] fails to decode the file, and
    reading the file as [encoding] raises [e], which is no decoding error. *)
Definition first_failure (w : World) (csv_file encoding : string) (e : exn) : Prop :=
  exists before after,
    encodings = before ++ encoding :: after
    /\ Forall (fun enc => exists e', open_read w csv_file enc = Raise e'
                                     /\ exn_kind e' = UnicodeDecodeError) before
    /\ open_read w csv_file encoding = Raise e
    /\ exn_kind e <> UnicodeDecodeError.

(** A world whose file is there for latin-1 only: the first attempt meets
    a file that cannot be opened. *)
Definition world_late (rows : list row) (day : Z) : World :=
  {| open_read := fun _ enc =>
       if String.eqb enc "utf-8" then Raise missing_file else Ok "text";
     DictReader := fun _ => (rows, None);
     now := fun _ => {| toordinal := day; time_of_day := 0 |} |}.

(** ** Tactics *)

(** The goals of [student_row_effect], case by case. *)
Ltac row_effect result :=
  split; [reflexivity|];
  split; [simpl; rewrite ?app_nil_r, <- ?app_assoc; reflexivity|];
  split; [reflexivity|];
  split; [repeat constructor; auto|];
  split; [simpl; lia | result].

Ltac row_raised := right; split; [reflexivity | simpl; lia].

(** * Properties *)

(** ** The embedding on sample inputs *)

Example strip_sample : strip "  15.30  " = "15.30" /\ lower "NaN" = "nan".
Proof. split; reflexivity. Qed.

Example py_int_sample :
  py_int " +1_0 " = Some 10 /\ py_int "-07" = Some (-7) /\ py_int "1__0" = None
  /\ py_int EmptyString = None /\ py_int "9 9" = None.
Proof. repeat split. Qed.

Example fmt02_sample :
  fmt02 5 = "05" /\ fmt02 0 = "00" /\ fmt02 123 = "123" /\ fmt02 (-5) = "-5".
Proof. repeat split. Qed.

Example split_sample :
  split1 "?" "a?b?c" = ["a"; "b?c"] /\ split_char ":" "1:2:" = ["1"; "2"; ""]
  /\ split_char ":" EmptyString = [EmptyString].
Proof. repeat split. Qed.

Example ord2ymd_sample :
  ord2ymd 738886 = (2024, 1, 1) /\ ord2ymd 738945 = (2024, 2, 29)
  /\ ord2ymd MAXORDINAL = (9999, 12, 31) /\ ord2ymd 1 = (1, 1, 1)
  /\ weekday {| toordinal := 738886; time_of_day := 0 |} = 0.
Proof. repeat split. Qed.

Example normalize_groovescribe_sample :
  normalize_groovescribe "  http://x.com/a?TimeSig=4/4&x=1 "
  = canonical_iframe "TimeSig=4/4&x=1"
  /\ normalize_groovescribe "<iframe SRC='http://x?TimeSig=4/4'></iframe>"
     = canonical_iframe "TimeSig=4/4"
  /\ normalize_groovescribe "?TimeSig=1" = canonical_iframe "TimeSig=1"
  /\ normalize_groovescribe "<iframe></iframe> " = "<iframe></iframe>".
Proof. repeat split. Qed.

Example youtube_sample :
  youtube_url_to_iframe "see https://www.youtube.com/watch?v=abc-1&t=3"
  = youtube_iframe "abc-1"
  /\ youtube_url_to_iframe "https://youtu.be/xyz" = youtube_iframe "xyz"
  /\ youtube_url_to_iframe " no video " = "no video".
Proof. repeat split. Qed.

Example students_sample :
  map (fun e => (entry_dayOfWeek e, entry_startTime e, entry_durationMin e,
                 DTSTART (entry_ical e)))
    (snd (convert_students_csv_to_json (world_of [jan_row] monday_2024)
            "students.csv"))
  = [ ("TU", "25:99", 30, "20240102T259900");
      ("FR", "09:05", 45, "20240105T090500") ].
Proof. reflexivity. Qed.

(** ** Facts about the string functions *)

Lemma str_app_assoc (a b c : string) : (a +:+ b) +:+ c = a +:+ (b +:+ c).
Proof. induction a as [|x a IH]; simpl; [reflexivity | now rewrite IH]. Qed.

Lemma truthy_true (s : string) : truthy s = true <-> s <> EmptyString.
Proof.
  unfold truthy. destruct s; simpl; split; intros H; congruence.
Qed.

Lemma truthy_false (s : string) : truthy s = false <-> s = EmptyString.
Proof.
  unfold truthy. destruct s; simpl; split; intros H; congruence.
Qed.

Lemma startswith_app (p s : string) : startswith (p +:+ s) p = true.
Proof.
  induction p as [|a p IH]; simpl; [reflexivity|].
  now rewrite Ascii.eqb_refl, IH.
Qed.

Lemma startswith_drop (s p : string) :
  startswith s p = true -> s = p +:+ drop (String.length p) s.
Proof.
  revert s. induction p as [|a p IH]; intros [|b s]; simpl; try congruence.
  intros H. apply andb_true_iff in H as [Hab Hs].
  apply Ascii.eqb_eq in Hab. subst b. now rewrite <- (IH s Hs).
Qed.

Lemma partition_sound (sep u pre post : string) :
  partition sep u = Some (pre, post) -> first_split sep u pre post.
Proof.
  revert pre. induction u as [|c u IH]; intros pre; simpl.
  - destruct (startswith EmptyString sep) eqn:Hp; [|discriminate].
    intros [= <- <-]. split; [now apply startswith_drop | simpl; lia].
  - destruct (startswith (String c u) sep) eqn:Hp.
    + intros [= <- <-]. split; [now apply startswith_drop | simpl; lia].
    + destruct (partition sep u) as [[a b]|] eqn:Hu; [|discriminate].
      intros [= <- <-]. destruct (IH a eq_refl) as [Heq Hmin].
      split; [simpl; now rewrite <- Heq|].
      intros [|c' pre'] post' H'; simpl in H'.
      * rewrite H', startswith_app in Hp. discriminate.
      * injection H' as _ H'. simpl. apply le_n_S. eauto.
Qed.

Lemma partition_complete (sep u pre post : string) :
  first_split sep u pre post -> partition sep u = Some (pre, post).
Proof.
  revert u. induction pre as [|c pre IH]; intros u [Heq Hmin].
  - simpl in Heq. subst u. destruct (sep +:+ post) eqn:E.
    + simpl. destruct sep; [|discriminate]. simpl in *. now subst post.
    + simpl. rewrite <- E, startswith_app, E.
      pose proof (startswith_drop (sep +:+ post) sep (startswith_app _ _)) as H.
      apply String.app_inj in H. now rewrite <- E, <- H.
  - simpl in Heq. subst u. simpl.
    destruct (startswith (String c (pre +:+ sep +:+ post)) sep) eqn:Hp.
    + apply startswith_drop in Hp.
      specialize (Hmin EmptyString _ Hp). simpl in Hmin. lia.
    + rewrite (IH (pre +:+ sep +:+ post)); [reflexivity|].
      split; [reflexivity|]. intros pre' post' H'.
      specialize (Hmin (String c pre') post'). simpl in Hmin.
      rewrite H' in Hmin. specialize (Hmin eq_refl). lia.
Qed.

Lemma contains_partition (sep u : string) :
  contains sep u = true <-> exists pre post, partition sep u = Some (pre, post).
Proof.
  induction u as [|c u IH]; simpl.
  - destruct (startswith EmptyString sep); simpl; split; eauto;
      try discriminate. intros (? & ? & ?); discriminate.
  - destruct (startswith (String c u) sep); simpl; [split; eauto|].
    rewrite IH. split.
    + intros (a & b & ->). eauto.
    + destruct (partition sep u) as [[a b]|]; [eauto|].
      intros (? & ? & ?); discriminate.
Qed.

(** The script indexes [split(sep, 1)] at 1 only where [sep in s] holds. *)
Lemma item1_split1 (sep u : string) :
  contains sep u = true ->
  exists pre post, first_split sep u pre post /\ item1 (split1 sep u) = post.
Proof.
  intros H. apply contains_partition in H as (pre & post & H).
  exists pre, post. split; [now apply partition_sound|].
  unfold split1. now rewrite H.
Qed.

Lemma first_split_contains (sep u pre post : string) :
  first_split sep u pre post ->
  contains sep u = true /\ item1 (split1 sep u) = post.
Proof.
  intros H. apply partition_complete in H. split.
  - apply contains_partition; eauto.
  - unfold split1. now rewrite H.
Qed.

Lemma first_split_unique (sep u pre post pre' post' : string) :
  first_split sep u pre post -> first_split sep u pre' post' ->
  pre = pre' /\ post = post'.
Proof.
  intros H H'. apply partition_complete in H, H'.
  rewrite H in H'. now injection H'.
Qed.

Lemma contains_app (sep a b : string) : contains sep (a +:+ sep +:+ b) = true.
Proof.
  induction a as [|c a IH].
  - cbn [String.append]. destruct (sep +:+ b) eqn:E; cbn [contains];
      now rewrite <- E, startswith_app.
  - cbn [String.append contains]. rewrite IH. apply orb_true_r.
Qed.

Lemma contains_false (sep u : string) :
  contains sep u = false <-> forall a b, u <> a +:+ sep +:+ b.
Proof.
  split.
  - intros H a b ->. now rewrite contains_app in H.
  - intros H. destruct (contains sep u) eqn:E; [|reflexivity].
    apply item1_split1 in E as (pre & post & [Heq _] & _).
    now apply H in Heq.
Qed.

Section Strip.
Variable p : ascii -> bool.

Lemma lstrip_clean (s : string) : clean_head p (lstrip_by p s).
Proof.
  induction s as [|c s IH]; simpl; [exact I|].
  destruct (p c) eqn:Hc; [exact IH | exact Hc].
Qed.

Lemma lstrip_id (s : string) : clean_head p s -> lstrip_by p s = s.
Proof. destruct s as [|c s]; simpl; [reflexivity|]. now intros ->. Qed.

Lemma rstrip_clean (s : string) : clean_head p s -> clean_head p (rstrip_by p s).
Proof.
  destruct s as [|c s]; simpl; [exact id|]. intros Hc.
  destruct (rstrip_by p s); [rewrite Hc|]; exact Hc.
Qed.

Lemma rstrip_idem (s : string) : rstrip_by p (rstrip_by p s) = rstrip_by p s.
Proof.
  induction s as [|c s IH]; simpl; [reflexivity|].
  destruct (rstrip_by p s) as [|d r] eqn:E.
  - destruct (p c) eqn:Hc; simpl; [reflexivity | now rewrite Hc].
  - simpl in *. now rewrite IH.
Qed.

Lemma rstrip_app (a b : string) :
  rstrip_by p b <> EmptyString ->
  rstrip_by p (a +:+ b) = a +:+ rstrip_by p b.
Proof.
  intros Hb. induction a as [|c a IH]; simpl; [reflexivity|].
  rewrite IH. destruct (a +:+ rstrip_by p b) eqn:E; [|reflexivity].
  destruct a; simpl in E; [contradiction | discriminate].
Qed.

Lemma strip_by_idem (s : string) :
  rstrip_by p (lstrip_by p (rstrip_by p (lstrip_by p s)))
  = rstrip_by p (lstrip_by p s).
Proof.
  rewrite (lstrip_id (rstrip_by p (lstrip_by p s))).
  - apply rstrip_idem.
  - apply rstrip_clean, lstrip_clean.
Qed.

End Strip.

Lemma strip_idem (s : string) : strip (strip s) = strip s.
Proof. apply strip_by_idem. Qed.

Lemma split_char_no_sep (c : ascii) (s : string) :
  contains (String c EmptyString) s = false -> split_char c s = [s].
Proof.
  induction s as [|a s IH]; [reflexivity|]. cbn [contains startswith split_char].
  rewrite andb_true_r, (Ascii.eqb_sym a c). intros H.
  apply orb_false_iff in H as [-> H]. now rewrite (IH H).
Qed.

(** ** The Groovescribe normalization *)

Lemma normalize_unfold (input_str : string) :
  normalize_groovescribe input_str
  = if String.eqb input_str EmptyString
       || String.eqb (lower (strip input_str)) "nan"
    then EmptyString else groove_core (strip input_str).
Proof. reflexivity. Qed.

Lemma no_quote_app (a b : string) :
  no_quote (a +:+ b) = no_quote a && no_quote b.
Proof.
  induction a as [|c a IH]; simpl; [reflexivity|].
  now rewrite IH, andb_assoc.
Qed.

Lemma span_nonquote_app (a : string) (c : ascii) (r : string) :
  no_quote a = true -> is_quote c = true ->
  span_nonquote (a +:+ String c r) = (a, String c r).
Proof.
  intros Ha Hc. induction a as [|x a IH]; simpl.
  - now rewrite Hc.
  - simpl in Ha. apply andb_true_iff in Ha as [Hx Ha].
    apply negb_true_iff in Hx. now rewrite Hx, (IH Ha).
Qed.

Lemma span_nonquote_fst (s : string) : no_quote (fst (span_nonquote s)) = true.
Proof.
  induction s as [|c s IH]; simpl; [reflexivity|].
  destruct (is_quote c) eqn:Hc; [reflexivity|].
  destruct (span_nonquote s) as [a b]. simpl in *. now rewrite Hc.
Qed.

Lemma match_src_here_no_quote (s u : string) :
  match_src_here s = Some u -> no_quote u = true.
Proof.
  unfold match_src_here.
  destruct (startswith_ci s "src="); [|discriminate].
  destruct (drop 4 s) as [|q rest]; [discriminate|].
  destruct (is_quote q); [|discriminate].
  pose proof (span_nonquote_fst rest) as H.
  destruct (span_nonquote rest) as [[|c a] [|d b]]; try discriminate.
  now intros [= <-].
Qed.

Lemma re_search_src_no_quote (s u : string) :
  re_search_src s = Some u -> no_quote u = true.
Proof.
  induction s as [|c s IH]; [discriminate|].
  cbn [re_search_src].
  - destruct (match_src_here (String c s)) eqn:E; [|exact IH].
    intros [= <-]. eauto using match_src_here_no_quote.
Qed.

Lemma re_search_src_skip (c : ascii) (s : string) :
  match_src_here (String c s) = None ->
  re_search_src (String c s) = re_search_src s.
Proof. intros H. simpl. now rewrite H. Qed.

Lemma re_search_src_here (s u : string) :
  match_src_here s = Some u -> re_search_src s = Some u.
Proof.
  intros H. destruct s; [discriminate H|].
  cbn [re_search_src]. now rewrite H.
Qed.

Lemma match_src_here_intro (u r : string) (q1 q2 : ascii) :
  is_quote q1 = true -> is_quote q2 = true ->
  no_quote u = true -> u <> EmptyString ->
  match_src_here ("src=" +:+ String q1 (u +:+ String q2 r)) = Some u.
Proof.
  intros H1 H2 Hu Hne. unfold match_src_here.
  cbn [String.append startswith_ci drop].
  rewrite H1, (span_nonquote_app u q2 r Hu H2).
  destruct u; [contradiction | reflexivity].
Qed.

(** The src attribute of the canonical embed is found again. *)
Lemma re_search_src_canonical (q : string) :
  no_quote q = true ->
  re_search_src (canonical_iframe q) = Some (PREFER_HOST +:+ "?" +:+ q).
Proof.
  intros Hq.
  transitivity
    (re_search_src
       ("src=" +:+ String dquote ((PREFER_HOST +:+ "?" +:+ q)
                                  +:+ String dquote (drop 1 iframe_close)))).
  - unfold canonical_iframe, iframe_open. cbn [String.append].
    repeat (rewrite re_search_src_skip by reflexivity).
    reflexivity.
  - apply re_search_src_here, match_src_here_intro; try reflexivity.
    + now rewrite !no_quote_app, Hq.
    + discriminate.
Qed.

Lemma extract_query_canonical (q : string) :
  extract_query (PREFER_HOST +:+ "?" +:+ q) = q.
Proof. reflexivity. Qed.

Lemma strip_canonical (q : string) :
  strip (canonical_iframe q) = canonical_iframe q.
Proof.
  unfold strip. rewrite lstrip_id by reflexivity.
  unfold canonical_iframe. rewrite <- !str_app_assoc.
  now rewrite rstrip_app.
Qed.

(** The canonical embed of a query without quotes is a fixed point. *)
Lemma normalize_canonical (q : string) :
  truthy q = true -> no_quote q = true ->
  normalize_groovescribe (canonical_iframe q) = canonical_iframe q.
Proof.
  intros Hne Hq. rewrite normalize_unfold, strip_canonical.
  replace (String.eqb (canonical_iframe q) EmptyString) with false
    by reflexivity.
  replace (String.eqb (lower (canonical_iframe q)) "nan") with false
    by reflexivity.
  cbn [orb]. unfold groove_core.
  replace (startswith (canonical_iframe q) "<iframe") with true by reflexivity.
  now rewrite (re_search_src_canonical q Hq), extract_query_canonical, Hne.
Qed.

Lemma extract_query_spec (u : string) :
  (forall q, query_of u q -> extract_query u = q)
  /\ ((forall q, ~ query_of u q) -> extract_query u = EmptyString).
Proof.
  unfold extract_query. destruct (contains "?" u) eqn:Hm.
  - destruct (item1_split1 _ _ Hm) as (pre & post & Hs & ->). split.
    + intros q [pre' q' Hs'|pre' post' Hno _].
      * now destruct (first_split_unique _ _ _ _ _ _ Hs Hs').
      * destruct Hs as [Heq _]. now apply Hno in Heq.
    + intros H. exfalso. apply (H post). now apply query_after_mark with pre.
  - destruct (contains "TimeSig=" u) eqn:Ht.
    + destruct (item1_split1 _ _ Ht) as (pre & post & Hs & ->). split.
      * intros q [pre' q' Hs'|pre' post' _ Hs'].
        -- apply first_split_contains in Hs' as [Hc _]. congruence.
        -- now destruct (first_split_unique _ _ _ _ _ _ Hs Hs') as [_ ->].
      * intros H. exfalso. apply (H ("TimeSig=" +:+ post)).
        apply query_from_timesig with pre; [|exact Hs].
        now apply contains_false.
    + split; [|reflexivity].
      intros q [pre' q' Hs'|pre' post' _ Hs'];
        apply first_split_contains in Hs' as [Hc _]; congruence.
Qed.

Lemma query_cases (u : string) :
  (truthy (extract_query u) = true /\ query_of u (extract_query u))
  \/ (truthy (extract_query u) = false
      /\ forall q, query_of u q -> q = EmptyString).
Proof.
  destruct (extract_query_spec u) as [Hq Hnone].
  destruct (truthy (extract_query u)) eqn:Ht; [left | right]; split; trivial.
  - unfold extract_query in *. destruct (contains "?" u) eqn:Hm.
    + destruct (item1_split1 _ _ Hm) as (pre & post & Hs & E).
      rewrite E. now apply query_after_mark with pre.
    + destruct (contains "TimeSig=" u) eqn:Hc; [|discriminate].
      destruct (item1_split1 _ _ Hc) as (pre & post & Hs & E).
      rewrite E. apply query_from_timesig with pre; [|exact Hs].
      now apply contains_false.
  - intros q H. apply Hq in H. apply truthy_false in Ht. congruence.
Qed.

Lemma groove_core_spec (s : string) :
  (forall q, variant s q -> groove_core s = canonical_iframe q)
  /\ ((forall q, ~ variant s q) -> groove_core s = s).
Proof.
  unfold groove_core.
  destruct (startswith s "<iframe") eqn:H1;
    [|destruct (startswith s "http") eqn:H2;
      [|destruct (startswith s "?TimeSig=") eqn:H3;
        [|destruct (startswith s "TimeSig=") eqn:H4]]].
  - (* an iframe tag *)
    apply startswith_drop in H1 as Hs. split.
    + intros q Hv.
      destruct Hv as [u q Hi Hu Hq Hne|q Hh _ _|Hb|Hb];
        try (rewrite Hs in *; discriminate).
      rewrite Hu. destruct (extract_query_spec u) as [E _].
      rewrite (E q Hq). apply truthy_true in Hne. now rewrite Hne.
    + intros Hnone. destruct (re_search_src s) as [u|] eqn:Hu; [|reflexivity].
      destruct (query_cases u) as [[Ht Hq]|[Ht _]]; rewrite Ht; [|reflexivity].
      exfalso. apply (Hnone (extract_query u)).
      apply variant_iframe with u; trivial. now apply truthy_true.
  - (* a URL *)
    apply startswith_drop in H2 as Hs. split.
    + intros q Hv.
      destruct Hv as [u q Hi Hu Hq Hne|q Hh Hq Hne|Hb|Hb];
        try congruence; try (rewrite Hs in *; discriminate).
      destruct (extract_query_spec s) as [E _].
      rewrite (E q Hq). apply truthy_true in Hne. now rewrite Hne.
    + intros Hnone.
      destruct (query_cases s) as [[Ht Hq]|[Ht _]]; rewrite Ht; [|reflexivity].
      exfalso. apply (Hnone (extract_query s)).
      apply variant_url; trivial. now apply truthy_true.
  - (* a bare query with its question mark *)
    apply startswith_drop in H3 as Hs. cbn [orb]. split.
    + intros q Hv.
      destruct Hv as [u q Hi Hu Hq Hne|q Hh Hq Hne|Hb|Hb];
        try congruence; try (rewrite Hs in *; discriminate).
      now rewrite Hs.
    + intros Hnone. exfalso. apply (Hnone (drop 1 s)).
      now apply variant_bare_mark.
  - (* a bare query *)
    apply startswith_drop in H4 as Hs. cbn [orb]. split.
    + intros q Hv.
      destruct Hv as [u q Hi Hu Hq Hne|q Hh Hq Hne|Hb|Hb];
        try congruence.
      now rewrite Hs.
    + intros Hnone. exfalso. apply (Hnone s). now apply variant_bare.
  - (* anything else *)
    cbn [orb]. split; [|reflexivity].
    intros q Hv. destruct Hv; congruence.
Qed.

Lemma no_quote_drop (n : nat) (s : string) :
  no_quote s = true -> no_quote (drop n s) = true.
Proof.
  revert s. induction n as [|n IH]; intros [|c s]; simpl; trivial.
  intros H. apply andb_true_iff in H as [_ H]. now apply IH.
Qed.

Lemma first_split_no_quote (sep u pre post : string) :
  first_split sep u pre post -> no_quote u = true -> no_quote post = true.
Proof.
  intros [-> _]. rewrite !no_quote_app, !andb_true_iff. tauto.
Qed.

Lemma extract_query_no_quote (u : string) :
  no_quote u = true -> no_quote (extract_query u) = true.
Proof.
  intros Hu. unfold extract_query. destruct (contains "?" u) eqn:Hm.
  - destruct (item1_split1 _ _ Hm) as (pre & post & Hs & ->).
    eauto using first_split_no_quote.
  - destruct (contains "TimeSig=" u) eqn:Ht; [|reflexivity].
    destruct (item1_split1 _ _ Ht) as (pre & post & Hs & ->).
    rewrite no_quote_app. cbn [andb].
    replace (no_quote "TimeSig=") with true by reflexivity.
    eauto using first_split_no_quote.
Qed.

(** The function returns its trimmed input or a canonical embed; the
    embed's query has no quote when the input is an iframe tag or has no
    quote itself. *)
Lemma groove_core_cases (s : string) :
  groove_core s = s
  \/ exists q, groove_core s = canonical_iframe q /\ truthy q = true
               /\ (startswith s "<iframe" = true \/ no_quote s = true ->
                   no_quote q = true).
Proof.
  unfold groove_core.
  destruct (startswith s "<iframe") eqn:H1;
    [|destruct (startswith s "http") eqn:H2;
      [|destruct (startswith s "?TimeSig=") eqn:H3;
        [|destruct (startswith s "TimeSig=") eqn:H4]]]; cbn [orb].
  - destruct (re_search_src s) as [u|] eqn:Hu; [|now left].
    destruct (truthy (extract_query u)) eqn:Ht; [right | now left].
    exists (extract_query u). split; [reflexivity | split; [exact Ht|]].
    intros _.
    eauto using extract_query_no_quote, re_search_src_no_quote.
  - destruct (truthy (extract_query s)) eqn:Ht; [right | now left].
    exists (extract_query s). split; [reflexivity | split; [exact Ht|]].
    intros [?|Hs]; [discriminate | now apply extract_query_no_quote].
  - right. apply startswith_drop in H3 as Hs.
    exists (drop 1 s). split; [|split].
    + now rewrite Hs.
    + now rewrite Hs.
    + intros [?|Hq]; [discriminate | now apply no_quote_drop].
  - right. apply startswith_drop in H4 as Hs.
    exists s. split; [|split].
    + now rewrite Hs.
    + now rewrite Hs.
    + intros [?|Hq]; [discriminate | trivial].
  - now left.
Qed.

(** C1 (as amended).  The function rewrites every Groovescribe variant to the
    canonical embed of the query it carries: an iframe tag whose src
    attribute carries a non-empty query, a text starting with http that
    carries one, a bare query starting with ?TimeSig= or TimeSig=.  The
    query of a URL is the text after its first question mark, and only a URL
    without a question mark is searched for TimeSig= (the query is then the
    text from there on); this holds for the src attribute of an iframe tag
    as for a full URL.  An input that is empty, or is nan in any case once
    trimmed, yields the empty string; every other input is returned
    trimmed. *)
Theorem normalize_groovescribe_variants (input_str : string) :
  let s := strip input_str in
  (input_str = EmptyString \/ lower s = "nan" ->
   normalize_groovescribe input_str = EmptyString)
  /\ (input_str <> EmptyString -> lower s <> "nan" ->
      (forall q, variant s q ->
                 normalize_groovescribe input_str = canonical_iframe q)
      /\ ((forall q, ~ variant s q) -> normalize_groovescribe input_str = s)).
Proof.
  intros s. rewrite normalize_unfold. fold s. split.
  - intros [-> | ->]; [reflexivity|].
    now rewrite orb_true_r.
  - intros Hne Hnan.
    apply String.eqb_neq in Hne, Hnan. rewrite Hne, Hnan. cbn [orb].
    apply groove_core_spec.
Qed.

Lemma normalize_groovescribe_variants_witness :
  normalize_groovescribe "<iframe src='http://x/e.html?TimeSig=4/4'></iframe>"
  = canonical_iframe "TimeSig=4/4"
  /\ normalize_groovescribe "  TimeSig=4/4 " = canonical_iframe "TimeSig=4/4"
  /\ normalize_groovescribe " NaN " = EmptyString
  /\ normalize_groovescribe "  a groove " = "a groove".
Proof.
  split; [|split; [|split]].
  - destruct (normalize_groovescribe_variants
                "<iframe src='http://x/e.html?TimeSig=4/4'></iframe>")
      as [_ H].
    destruct H as [H _]; [discriminate | discriminate |].
    apply H. apply variant_iframe with "http://x/e.html?TimeSig=4/4";
      [reflexivity | reflexivity | | discriminate].
    apply query_after_mark with "http://x/e.html".
    now apply partition_sound.
  - destruct (normalize_groovescribe_variants "  TimeSig=4/4 ") as [_ H].
    destruct H as [H _]; [discriminate | discriminate |].
    apply H. now apply variant_bare.
  - destruct (normalize_groovescribe_variants " NaN ") as [H _].
    apply H. now right.
  - destruct (normalize_groovescribe_variants "  a groove ") as [_ H].
    destruct H as [_ H]; [discriminate | discriminate |].
    apply H. intros q Hv. destruct Hv; discriminate.
Defined.

(** C1, as stated, fails.  A URL with a TimeSig= segment and a question
    mark with nothing after it is returned as it is, not as a canonical
    embed of any query; and an iframe tag whose src attribute has a TimeSig=
    segment and no question mark is rewritten, not returned trimmed. *)
Lemma normalize_groovescribe_variants_counterexample :
  (startswith "http://x/TimeSig=4/4?" "http" = true
   /\ contains "TimeSig=" "http://x/TimeSig=4/4?" = true
   /\ normalize_groovescribe "http://x/TimeSig=4/4?" = "http://x/TimeSig=4/4?"
   /\ forall q, normalize_groovescribe "http://x/TimeSig=4/4?" <> canonical_iframe q)
  /\ (re_search_src "<iframe src='TimeSig=4/4'>" = Some "TimeSig=4/4"
      /\ contains "?" "TimeSig=4/4" = false
      /\ normalize_groovescribe "<iframe src='TimeSig=4/4'>"
         = canonical_iframe "TimeSig=4/4"
      /\ normalize_groovescribe "<iframe src='TimeSig=4/4'>"
         <> strip "<iframe src='TimeSig=4/4'>").
Proof.
  repeat split; try reflexivity; try discriminate.
Qed.

(** C8 (as amended).  Applying the function twice gives what applying it once
    gives, for every input that, once trimmed, is an iframe tag or holds no
    quote character; the canonical embed of a query without quotes is
    mapped to itself. *)
Theorem normalize_groovescribe_idempotent (input_str : string) :
  startswith (strip input_str) "<iframe" = true
  \/ no_quote (strip input_str) = true ->
  normalize_groovescribe (normalize_groovescribe input_str)
  = normalize_groovescribe input_str.
Proof.
  intros H. rewrite (normalize_unfold input_str).
  destruct (String.eqb input_str EmptyString
            || String.eqb (lower (strip input_str)) "nan") eqn:G;
    [reflexivity|].
  apply orb_false_iff in G as [_ Hnan].
  destruct (groove_core_cases (strip input_str)) as [E | (q & E & Ht & Hq)].
  - rewrite E, normalize_unfold, strip_idem, Hnan, orb_false_r.
    destruct (String.eqb_spec (strip input_str) EmptyString) as [Hs|_];
      [now rewrite Hs | exact E].
  - rewrite E. apply normalize_canonical; auto.
Qed.

Lemma normalize_groovescribe_idempotent_witness :
  normalize_groovescribe
    (normalize_groovescribe "<iframe src='http://x/e.html?TimeSig=4/4'>")
  = normalize_groovescribe "<iframe src='http://x/e.html?TimeSig=4/4'>"
  /\ normalize_groovescribe (normalize_groovescribe " http://x/?TimeSig=4/4")
     = normalize_groovescribe " http://x/?TimeSig=4/4".
Proof.
  split; apply normalize_groovescribe_idempotent;
    [left | right]; reflexivity.
Defined.

(** C8, as stated, fails: a bare query with a quote in it becomes an embed
    whose src attribute ends at that quote, and the second application
    keeps the query only up to there. *)
Lemma normalize_groovescribe_idempotent_counterexample :
  normalize_groovescribe "TimeSig=4/4'x" = canonical_iframe "TimeSig=4/4'x"
  /\ normalize_groovescribe (canonical_iframe "TimeSig=4/4'x")
     = canonical_iframe "TimeSig=4/4"
  /\ normalize_groovescribe (normalize_groovescribe "TimeSig=4/4'x")
     <> normalize_groovescribe "TimeSig=4/4'x".
Proof.
  repeat split; try reflexivity. discriminate.
Qed.

(** ** The shared skeleton of the converters *)

Section Skeleton.
Context {S : Type}.
Variable put : string -> S -> S.
Variable body : Z -> row -> M S unit.
Variable warning : Z -> exn -> string.

(** A row in its [try] never raises: an exception of the body becomes a
    warning, and what the body did before stays done. *)
Lemma guarded_step (row_num : Z) (r : row) (st : S) :
  guarded put body warning row_num r st
  = match body row_num r st with
    | (Ok _, st') => (Ok tt, st')
    | (Raise e, st') => (Ok tt, put (warning row_num e) st')
    end.
Proof.
  unfold guarded, try_except. destruct (body row_num r st) as [[[]|e] st'];
    reflexivity.
Qed.

Lemma for_rows_guarded_ok (rows : list row) (row_num : Z) (st : S) :
  fst (for_rows (guarded put body warning) row_num rows st) = Ok tt.
Proof.
  revert row_num st. induction rows as [|r rows IH]; intros n st; simpl;
    [reflexivity|].
  unfold bind. rewrite guarded_step.
  destruct (body n r st) as [[[]|e] st']; apply IH.
Qed.

Lemma for_rows_cons (r : row) (rows : list row) (row_num : Z) (st : S) :
  for_rows (guarded put body warning) row_num (r :: rows) st
  = for_rows (guarded put body warning) (row_num + 1) rows
      (snd (guarded put body warning row_num r st)).
Proof.
  simpl. unfold bind. rewrite guarded_step.
  destruct (body row_num r st) as [[[]|e] st']; reflexivity.
Qed.

End Skeleton.

Lemma decode_any_decoded (w : World) (csv_file enc text : string) :
  first_decoding w csv_file enc text ->
  decode_any w csv_file encodings = Decoded enc text.
Proof.
  intros (before & after & -> & Hb & Hok).
  induction Hb as [|x before (e & Hx & Hk) _ IH]; simpl.
  - now rewrite Hok.
  - rewrite Hx. unfold is_decode_error. now rewrite Hk.
Qed.

Lemma decode_any_unreadable (w : World) (csv_file : string) :
  unreadable w csv_file ->
  forall enc text, decode_any w csv_file encodings <> Decoded enc text.
Proof.
  unfold unreadable. generalize encodings.
  induction 1 as [|x encs (e & Hx) _ IH]; simpl; [discriminate|].
  rewrite Hx. destruct (is_decode_error e); [exact IH | discriminate].
Qed.

Section Runs.
Context {S : Type}.
Variable put : string -> S -> S.
Variable w : World.
Variable body : Z -> row -> M S unit.
Variable warning : Z -> exn -> string.
Variable error : exn -> string.

Lemma read_any_run (csv_file : string) (encs : list string) (st : S) :
  read_any put w csv_file encs st
  = match decode_any w csv_file encs with
    | Decoded enc text =>
        (Ok (Some text),
         put ("Successfully read " +:+ csv_file +:+ " with " +:+ enc
              +:+ " encoding") st)
    | Failed e => (Raise e, st)
    | Exhausted => (Ok None, st)
    end.
Proof.
  induction encs as [|enc encs IH]; simpl; [reflexivity|].
  destruct (open_read w csv_file enc) as [text|e]; [reflexivity|].
  destruct (is_decode_error e); [exact IH | reflexivity].
Qed.

(** The state a converter ends in, whatever the file. *)
Lemma converter_run (csv_file : string) (st : S) :
  converter put w csv_file body warning error st
  = (Ok tt,
     match decode_any w csv_file encodings with
     | Decoded enc text =>
         let st1 :=
           after_rows put body warning (fst (DictReader w text))
             (put ("Successfully read " +:+ csv_file +:+ " with " +:+ enc
                   +:+ " encoding") st) in
         match snd (DictReader w text) with
         | Some e => put (error e) st1
         | None => st1
         end
     | Failed e => put (error e) st
     | Exhausted => put (error (unreadable_error csv_file)) st
     end).
Proof.
  unfold converter, try_except, read_and_convert, bind at 1.
  rewrite read_any_run.
  destruct (decode_any w csv_file encodings) as [enc text|e|]; try reflexivity.
  unfold after_rows. destruct (DictReader w text) as [rows err].
  simpl fst. simpl snd. unfold bind.
  pose proof (for_rows_guarded_ok put body warning rows 1
    (put ("Successfully read " +:+ csv_file +:+ " with " +:+ enc
          +:+ " encoding") st)) as Hloop.
  destruct (for_rows _ _ _ _) as [res st1]. simpl in Hloop. subst res.
  destruct err; reflexivity.
Qed.

(** No exception leaves a converter. *)
Lemma converter_ok (csv_file : string) (st : S) :
  fst (converter put w csv_file body warning error st) = Ok tt.
Proof.
  unfold converter, try_except.
  destruct (read_and_convert _ _ _ _ _ _) as [[[]|e] st']; reflexivity.
Qed.

End Runs.

(** ** Songs and notation patterns: one record per row *)

Lemma songs_rows (rows : list row) (n : Z) (st : songs_state) :
  for_rows (guarded songs_put song_row song_warning) n rows st
  = (Ok tt, {| songs := songs st ++ songs_of_rows n rows;
               songs_stdout := songs_stdout st |}).
Proof.
  revert n st. induction rows as [|r rows IH]; intros n st.
  - simpl. unfold ret, songs_of_rows. simpl. rewrite app_nil_r. now destruct st.
  - rewrite for_rows_cons, guarded_step. simpl snd. rewrite IH. simpl.
    unfold songs_of_rows. simpl. now rewrite <- app_assoc.
Qed.

Lemma lessons_rows (rows : list row) (n : Z) (st : lessons_state) :
  for_rows (guarded lessons_put lesson_row lesson_warning) n rows st
  = (Ok tt, {| lessons := lessons st ++ lessons_of_rows n rows;
               lessons_stdout := lessons_stdout st |}).
Proof.
  revert n st. induction rows as [|r rows IH]; intros n st.
  - simpl. unfold ret, lessons_of_rows. simpl. rewrite app_nil_r. now destruct st.
  - rewrite for_rows_cons, guarded_step. simpl snd. rewrite IH. simpl.
    unfold lessons_of_rows. simpl. now rewrite <- app_assoc.
Qed.

Lemma songs_run_eq (w : World) (csv_file : string) :
  songs_run w csv_file
  = match decode_any w csv_file encodings with
    | Decoded enc text =>
        {| songs := songs_of_rows 1 (fst (DictReader w text));
           songs_stdout :=
             read_line csv_file enc
             :: match snd (DictReader w text) with
                | Some e => [song_error e]
                | None => []
                end |}
    | Failed e => {| songs := []; songs_stdout := [song_error e] |}
    | Exhausted =>
        {| songs := []; songs_stdout := [song_error (unreadable_error csv_file)] |}
    end.
Proof.
  unfold songs_run. rewrite converter_run. cbn [snd].
  destruct (decode_any w csv_file encodings) as [enc text|e|]; try reflexivity.
  cbv zeta. unfold after_rows. rewrite songs_rows. cbn [snd].
  destruct (snd (DictReader w text)); reflexivity.
Qed.

Lemma lessons_run_eq (w : World) (csv_file : string) :
  lessons_run w csv_file
  = match decode_any w csv_file encodings with
    | Decoded enc text =>
        {| lessons := lessons_of_rows 1 (fst (DictReader w text));
           lessons_stdout :=
             read_line csv_file enc
             :: match snd (DictReader w text) with
                | Some e => [lesson_error e]
                | None => []
                end |}
    | Failed e => {| lessons := []; lessons_stdout := [lesson_error e] |}
    | Exhausted =>
        {| lessons := [];
           lessons_stdout := [lesson_error (unreadable_error csv_file)] |}
    end.
Proof.
  unfold lessons_run. rewrite converter_run. cbn [snd].
  destruct (decode_any w csv_file encodings) as [enc text|e|]; try reflexivity.
  cbv zeta. unfold after_rows. rewrite lessons_rows. cbn [snd].
  destruct (snd (DictReader w text)); reflexivity.
Qed.

Lemma songs_of_input (w : World) (csv_file : string) :
  convert_songs_csv_to_json w csv_file = songs_of_rows 1 (input_rows w csv_file).
Proof.
  unfold convert_songs_csv_to_json, input_rows. rewrite songs_run_eq.
  destruct (decode_any w csv_file encodings); reflexivity.
Qed.

Lemma lessons_of_input (w : World) (csv_file : string) :
  convert_notatie_csv_to_json w csv_file
  = lessons_of_rows 1 (input_rows w csv_file).
Proof.
  unfold convert_notatie_csv_to_json, input_rows. rewrite lessons_run_eq.
  destruct (decode_any w csv_file encodings); reflexivity.
Qed.

(** ** Students: the lessons of a row *)

(** What the table holds: names that are neither empty nor nan, and the
    seven two-letter codes. *)
Lemma day_mapping_code (name code : string) :
  day_mapping !! name = Some code ->
  (exists position, index_of code day_codes = Some position
                    /\ 0 <= position <= 6)
  /\ truthy code = true /\ name <> EmptyString /\ name <> "nan"
  /\ In code day_codes /\ String.length code = 2%nat.
Proof.
  unfold day_mapping. intros H. apply elem_of_list_to_map_2 in H.
  repeat (apply elem_of_cons in H as [H|H];
          [injection H as -> ->;
           (split; [eexists; split; [reflexivity | lia]|]);
           (split; [reflexivity|]); (split; [discriminate|]);
           (split; [discriminate|]); (split; [simpl; tauto | reflexivity])|]).
  now apply elem_of_nil in H.
Qed.

Lemma lesson_slot_skip (w : World) (r : row) (st : student) (i : Z)
    (s : students_state) :
  slot_plan r i = None -> lesson_slot w r st i s = (Ok tt, s).
Proof.
  unfold slot_plan, lesson_slot, slot_day, slot_time. intros H.
  destruct (negb (truthy _) || negb (truthy _) || _ || _); [reflexivity|].
  destruct (day_mapping !! _) as [code|]; [|reflexivity].
  destruct (negb (truthy code)); [reflexivity|].
  destruct (negb (contains _ _) || _); [reflexivity|].
  unfold parse_time.
  destruct (split_char _ _) as [|a [|b [|]]]; try reflexivity.
  destruct (py_int a), (py_int b); try reflexivity; discriminate.
Qed.

Lemma lesson_slot_emit (w : World) (r : row) (st : student) (i : Z)
    (s : students_state) (code : string) (h m : Z) :
  slot_plan r i = Some (code, h, m) ->
  exists position,
    index_of code day_codes = Some position /\ 0 <= position <= 6
    /\ lesson_slot w r st i s
       = let today := now w (clock_calls s) in
         match add_days today (days_ahead position today) with
         | Some next => (Ok tt, add_entry (slot_entry st r i code h m next) (tick s))
         | None => (Raise overflow_error, tick s)
         end.
Proof.
  unfold slot_plan, lesson_slot, slot_entry, slot_day, slot_time, slot_duration.
  set (day_raw := safe_get r _ _). set (time_raw := safe_get r ("stLestijd" +:+ _) _).
  destruct (day_mapping !! _) as [code'|] eqn:Hday; [|discriminate].
  destruct (split_char _ _) as [|a [|b [|]]] eqn:Hsplit; try discriminate.
  destruct (py_int a) as [h'|] eqn:Ha; [|discriminate].
  destruct (py_int b) as [m'|] eqn:Hb; [|discriminate].
  intros [= -> -> ->].
  destruct (day_mapping_code _ _ Hday)
    as ((pos & Hpos & Hrange) & Hcode & Hne & Hnan & _).
  exists pos. split; [exact Hpos | split; [exact Hrange|]].
  assert (Hd : truthy day_raw = true /\ String.eqb day_raw "nan" = false).
  { split; [apply truthy_true | apply String.eqb_neq]; intros E; rewrite E in *;
      [now apply Hne | now apply Hnan]. }
  assert (Ht : truthy time_raw = true /\ String.eqb time_raw "nan" = false).
  { split; [apply truthy_true | apply String.eqb_neq]; intros E; rewrite E in *;
      discriminate. }
  destruct Hd as [-> ->], Ht as [-> ->]. cbn [negb orb]. rewrite Hcode.
  cbn [negb].
  assert (Hc : contains ":" (replace_char "." ":" time_raw) = true).
  { destruct (contains _ _) eqn:E; [reflexivity|].
    apply split_char_no_sep in E. rewrite E in Hsplit. discriminate. }
  rewrite Hc. cbn [length Nat.eqb negb orb].
  unfold parse_time. rewrite Hsplit, Ha, Hb.
  unfold bind, datetime_now, days_ahead. rewrite Hpos. cbv zeta.
  destruct (add_days _ _); reflexivity.
Qed.

Lemma days_ahead_range (position : Z) (today : datetime) :
  1 <= days_ahead position today <= 7.
Proof.
  unfold days_ahead.
  pose proof (Z.mod_pos_bound (position - weekday today) 7 ltac:(lia)).
  destruct (Z.eqb_spec ((position - weekday today) mod 7) 0); lia.
Qed.

Lemma add_days_in_range (position : Z) (today : datetime) :
  date_in_range today ->
  exists next, add_days today (days_ahead position today) = Some next.
Proof.
  unfold date_in_range, add_days, MAXORDINAL. intros H.
  pose proof (days_ahead_range position today).
  destruct (Z.leb_spec 1 (toordinal today + days_ahead position today));
    [|lia].
  destruct (Z.leb_spec (toordinal today + days_ahead position today) 3652059);
    [|lia].
  eauto.
Qed.

(** What one slot of a row does: nothing, or one call of the clock, that
    an entry or an overflow of the date follows. *)
Lemma lesson_slot_cases (w : World) (r : row) (st : student) (i : Z)
    (s : students_state) :
  (slot_plan r i = None /\ lesson_slot w r st i s = (Ok tt, s))
  \/ (exists code h m,
        slot_plan r i = Some (code, h, m)
        /\ ~ date_in_range (now w (clock_calls s))
        /\ lesson_slot w r st i s = (Raise overflow_error, tick s))
  \/ (exists code h m next,
        slot_plan r i = Some (code, h, m)
        /\ lesson_slot w r st i s
           = (Ok tt, add_entry (slot_entry st r i code h m next) (tick s))).
Proof.
  destruct (slot_plan r i) as [[[code h] m]|] eqn:Hp.
  - right. destruct (lesson_slot_emit w r st i s code h m Hp)
      as (pos & _ & _ & ->). cbv zeta.
    destruct (add_days _ _) as [next|] eqn:Hadd.
    + right. now exists code, h, m, next.
    + left. exists code, h, m. split; [reflexivity | split; [|reflexivity]].
      intros Hr. destruct (add_days_in_range pos _ Hr) as [next Hn]. congruence.
  - left. split; [reflexivity | now apply lesson_slot_skip].
Qed.

(** The entry a slot appends, when it appends one. *)
Lemma lesson_slot_appended (w : World) (r : row) (st : student) (i : Z)
    (s : students_state) (e : schedule_entry) :
  schedule (snd (lesson_slot w r st i s)) = schedule s ++ [e] ->
  exists code h m next,
    slot_plan r i = Some (code, h, m) /\ e = slot_entry st r i code h m next.
Proof.
  destruct (lesson_slot_cases w r st i s)
    as [[_ ->]|[(c & h & m & _ & _ & ->)|(c & h & m & x & P & ->)]]; simpl.
  - intros H. apply (f_equal length) in H. rewrite length_app in H. simpl in H. lia.
  - intros H. apply (f_equal length) in H. rewrite length_app in H. simpl in H. lia.
  - intros H. apply app_inv_head in H. injection H as <-. now exists c, h, m, x.
Qed.

Lemma slot_plan_intro (r : row) (i : Z) (code a b : string) (h m : Z) :
  day_mapping !! strip (lower (slot_day r i)) = Some code ->
  split_char ":" (replace_char "." ":" (slot_time r i)) = [a; b] ->
  py_int a = Some h -> py_int b = Some m ->
  slot_plan r i = Some (code, h, m).
Proof. intros Hd Hs Ha Hb. unfold slot_plan. now rewrite Hd, Hs, Ha, Hb. Qed.

Lemma lesson_slot_in_range_emits (w : World) (r : row) (st : student) (i : Z)
    (s : students_state) (code : string) (h m : Z) :
  slot_plan r i = Some (code, h, m) ->
  date_in_range (now w (clock_calls s)) ->
  exists next,
    lesson_slot w r st i s
    = (Ok tt, add_entry (slot_entry st r i code h m next) (tick s)).
Proof.
  intros Hp Hr.
  destruct (lesson_slot_emit w r st i s code h m Hp) as (pos & _ & _ & ->).
  cbv zeta. destruct (add_days_in_range pos _ Hr) as [next ->]. now exists next.
Qed.

Lemma student_row_unfold (w : World) (n : Z) (r : row) (s : students_state) :
  student_row w n r s
  = match lesson_slot w r (student_of_row n r) 1
            (with_student (student_of_row n r) s) with
    | (Ok _, s1) =>
        match lesson_slot w r (student_of_row n r) 2 s1 with
        | (Ok _, s2) => (Ok tt, s2)
        | (Raise e, s2) => (Raise e, s2)
        end
    | (Raise e, s1) => (Raise e, s1)
    end.
Proof.
  unfold student_row, for_each, bind, students_append, modify, ret, with_student.
  destruct (lesson_slot w r _ 1 _) as [[[]|e1] s1]; [|reflexivity].
  destruct (lesson_slot w r _ 2 _) as [[[]|e2] s2]; reflexivity.
Qed.

Lemma student_row_effect (w : World) (n : Z) (r : row) (s : students_state) :
  exists es,
    students (snd (student_row w n r s)) = students s ++ [student_of_row n r]
    /\ schedule (snd (student_row w n r s)) = schedule s ++ es
    /\ students_stdout (snd (student_row w n r s)) = students_stdout s
    /\ Forall (from_row n r) es
    /\ (length es <= 2)%nat
    /\ (fst (student_row w n r s) = Ok tt
        \/ fst (student_row w n r s) = Raise overflow_error
           /\ (length es <= 1)%nat).
Proof.
  rewrite student_row_unfold. set (st := student_of_row n r).
  assert (F : forall i code h m next, (i = 1 \/ i = 2) ->
              slot_plan r i = Some (code, h, m) ->
              from_row n r (slot_entry st r i code h m next)).
  { intros i code h m next Hi Hp. now exists i, code, h, m, next. }
  destruct (lesson_slot_cases w r st 1 (with_student st s))
    as [[_ ->]|[(c1 & h1 & m1 & _ & _ & ->)|(c1 & h1 & m1 & x1 & P1 & ->)]].
  - destruct (lesson_slot_cases w r st 2 (with_student st s))
      as [[_ ->]|[(c2 & h2 & m2 & _ & _ & ->)|(c2 & h2 & m2 & x2 & P2 & ->)]].
    + exists []. row_effect ltac:(now left).
    + exists []. row_effect row_raised.
    + exists [slot_entry st r 2 c2 h2 m2 x2]. row_effect ltac:(now left).
  - exists []. row_effect row_raised.
  - destruct (lesson_slot_cases w r st 2
                (add_entry (slot_entry st r 1 c1 h1 m1 x1)
                   (tick (with_student st s))))
      as [[_ ->]|[(c2 & h2 & m2 & _ & _ & ->)|(c2 & h2 & m2 & x2 & P2 & ->)]].
    + exists [slot_entry st r 1 c1 h1 m1 x1]. row_effect ltac:(now left).
    + exists [slot_entry st r 1 c1 h1 m1 x1]. row_effect row_raised.
    + exists [slot_entry st r 1 c1 h1 m1 x1; slot_entry st r 2 c2 h2 m2 x2].
      row_effect ltac:(now left).
Qed.

(** The loop over the rows: one student per row, in the order of the
    rows, and for each row its entries, in that order too. *)
Lemma students_rows_effect (w : World) (rows : list row) (n : Z)
    (s : students_state) :
  exists ess,
    students (snd (for_rows (guarded students_put (student_row w) student_warning)
                     n rows s))
    = students s ++ students_of_rows n rows
    /\ schedule (snd (for_rows (guarded students_put (student_row w)
                                 student_warning) n rows s))
       = schedule s ++ concat ess
    /\ Forall2 (fun nr es => Forall (from_row (fst nr) (snd nr)) es
                             /\ (length es <= 2)%nat)
         (enumerate n rows) ess.
Proof.
  revert n s. induction rows as [|r rows IH]; intros n s.
  - exists []. simpl. rewrite !app_nil_r. auto.
  - rewrite for_rows_cons, guarded_step.
    destruct (student_row_effect w n r s)
      as (es & Hst & Hsc & _ & Hes & Hlen & _).
    destruct (student_row w n r s) as [[[]|e] s1]; simpl in Hst, Hsc; simpl snd.
    + destruct (IH (n + 1) s1) as (ess & -> & -> & HF).
      exists (es :: ess). rewrite Hst, Hsc. simpl.
      unfold students_of_rows. simpl. rewrite <- !app_assoc. auto.
    + destruct (IH (n + 1) (students_put (student_warning n e) s1))
        as (ess & -> & -> & HF).
      exists (es :: ess). simpl. rewrite Hst, Hsc.
      unfold students_of_rows. simpl. rewrite <- !app_assoc. auto.
Qed.

(** The students and the entries of a run: one student per row, and the
    entries of each row, in the order of the rows. *)
Lemma students_of_input (w : World) (csv_file : string) :
  exists ess,
    fst (convert_students_csv_to_json w csv_file)
    = students_of_rows 1 (input_rows w csv_file)
    /\ snd (convert_students_csv_to_json w csv_file) = concat ess
    /\ Forall2 (fun nr es => Forall (from_row (fst nr) (snd nr)) es
                             /\ (length es <= 2)%nat)
         (enumerate 1 (input_rows w csv_file)) ess.
Proof.
  unfold convert_students_csv_to_json, students_run, input_rows.
  rewrite converter_run. cbn [fst snd].
  destruct (decode_any w csv_file encodings) as [enc text|e|];
    try (exists []; repeat split; constructor).
  cbv zeta. unfold after_rows.
  destruct (students_rows_effect w (fst (DictReader w text)) 1
              (students_put (read_line csv_file enc) students_init))
    as (ess & Hst & Hsc & HF).
  exists ess. unfold read_line in *.
  destruct (snd (DictReader w text));
    cbn [students_put students schedule]; rewrite Hst, Hsc; auto.
Qed.

Lemma students_unread (w : World) (csv_file : string) :
  (forall enc text, decode_any w csv_file encodings <> Decoded enc text) ->
  exists e, students_run w csv_file
            = {| students := []; schedule := [];
                 students_stdout := [student_error e]; clock_calls := O |}.
Proof.
  intros H. unfold students_run. rewrite converter_run. cbn [snd].
  destruct (decode_any w csv_file encodings) as [enc text|e|].
  - now destruct (H enc text).
  - now exists e.
  - now exists (unreadable_error csv_file).
Qed.

Lemma slot_plan_day (r : row) (i : Z) (code : string) (h m : Z) :
  slot_plan r i = Some (code, h, m) ->
  day_mapping !! strip (lower (slot_day r i)) = Some code.
Proof.
  unfold slot_plan. destruct (day_mapping !! _) as [c|]; [|discriminate].
  destruct (split_char _ _) as [|a [|b [|]]]; try discriminate.
  destruct (py_int a), (py_int b); try discriminate. now intros [= -> _ _].
Qed.

(** What holds of every entry of a row holds of every entry of a run. *)
Lemma schedule_entries_from_rows (w : World) (csv_file : string)
    (P : schedule_entry -> Prop) :
  (forall n r e, from_row n r e -> P e) ->
  Forall P (snd (convert_students_csv_to_json w csv_file)).
Proof.
  intros HP. destruct (students_of_input w csv_file) as (ess & _ & -> & HF).
  induction HF as [|nr es rows ess [Hes _] _ IH]; simpl; [constructor|].
  apply Forall_app. split; [|exact IH].
  eapply Forall_impl; [exact Hes|]. intros e He. exact (HP _ _ _ He).
Qed.

(** ** Two runs side by side *)

Section Simulation.
Context {S : Type}.
Variable R : S -> S -> Prop.
Variable put : string -> S -> S.
Variables w1 w2 : World.
Variables body1 body2 : Z -> row -> M S unit.
Variable warning : Z -> exn -> string.
Variable error : exn -> string.
Hypothesis Hput : forall line s1 s2, R s1 s2 -> R (put line s1) (put line s2).
Hypothesis Hinput : same_input w1 w2.
Hypothesis Hbody : forall n r s1 s2,
  R s1 s2 ->
  fst (body1 n r s1) = fst (body2 n r s2)
  /\ R (snd (body1 n r s1)) (snd (body2 n r s2)).

Lemma decode_any_same (csv_file : string) (encs : list string) :
  decode_any w1 csv_file encs = decode_any w2 csv_file encs.
Proof.
  destruct Hinput as [Hread _].
  induction encs as [|enc encs IH]; simpl; [reflexivity|].
  now rewrite Hread, IH.
Qed.

Lemma for_rows_sim (rows : list row) (n : Z) (s1 s2 : S) :
  R s1 s2 ->
  R (snd (for_rows (guarded put body1 warning) n rows s1))
    (snd (for_rows (guarded put body2 warning) n rows s2)).
Proof.
  revert n s1 s2. induction rows as [|r rows IH]; intros n s1 s2 HR;
    [exact HR|].
  rewrite !for_rows_cons, !guarded_step. apply IH.
  destruct (Hbody n r s1 s2 HR) as [Hres Hst].
  destruct (body1 n r s1) as [[[]|e1] t1], (body2 n r s2) as [[[]|e2] t2];
    simpl in *; try discriminate; [exact Hst|].
  injection Hres as <-. now apply Hput.
Qed.

Lemma converter_sim (csv_file : string) (s1 s2 : S) :
  R s1 s2 ->
  R (snd (converter put w1 csv_file body1 warning error s1))
    (snd (converter put w2 csv_file body2 warning error s2)).
Proof.
  intros HR. rewrite !converter_run, <- decode_any_same. cbn [snd].
  destruct (decode_any w1 csv_file encodings) as [enc text|e|]; auto.
  destruct Hinput as [_ Hreader]. rewrite <- Hreader. cbv zeta.
  unfold after_rows.
  destruct (snd (DictReader w1 text)); [apply Hput|]; apply for_rows_sim; auto.
Qed.

End Simulation.

Lemma input_rows_same (w1 w2 : World) (csv_file : string) :
  same_input w1 w2 -> input_rows w1 csv_file = input_rows w2 csv_file.
Proof.
  intros H. unfold input_rows. rewrite (decode_any_same w1 w2 H).
  destruct H as [_ H]. destruct (decode_any w2 csv_file encodings); trivial.
  now rewrite H.
Qed.

Lemma lesson_slot_same_date (w1 w2 : World) (r : row) (st : student) (i : Z)
    (s : students_state) :
  toordinal (now w1 (clock_calls s)) = toordinal (now w2 (clock_calls s)) ->
  lesson_slot w1 r st i s = lesson_slot w2 r st i s.
Proof.
  intros H. destruct (slot_plan r i) as [[[code h] m]|] eqn:Hp.
  - destruct (lesson_slot_emit w1 r st i s code h m Hp) as (p1 & Hp1 & _ & ->).
    destruct (lesson_slot_emit w2 r st i s code h m Hp) as (p2 & Hp2 & _ & ->).
    assert (p2 = p1) as -> by congruence. cbv zeta.
    unfold days_ahead, weekday, add_days. rewrite H.
    destruct (_ && _); reflexivity.
  - now rewrite !lesson_slot_skip.
Qed.

Lemma student_row_same_date (w1 w2 : World) (n : Z) (r : row)
    (s : students_state) :
  (forall k, toordinal (now w1 k) = toordinal (now w2 k)) ->
  student_row w1 n r s = student_row w2 n r s.
Proof.
  intros H. rewrite !student_row_unfold.
  rewrite (lesson_slot_same_date w1 w2) by apply H.
  destruct (lesson_slot w2 r _ 1 _) as [[[]|e] s1]; [|reflexivity].
  now rewrite (lesson_slot_same_date w1 w2) by apply H.
Qed.

Lemma lesson_slot_in_range (w1 w2 : World) (r : row) (st : student) (i : Z)
    (s1 s2 : students_state) :
  clock_ok w1 -> clock_ok w2 -> same_but_dtstart s1 s2 ->
  fst (lesson_slot w1 r st i s1) = Ok tt
  /\ fst (lesson_slot w2 r st i s2) = Ok tt
  /\ same_but_dtstart (snd (lesson_slot w1 r st i s1))
       (snd (lesson_slot w2 r st i s2)).
Proof.
  intros H1 H2 (Hst & Hsc & Hout).
  destruct (lesson_slot_cases w1 r st i s1)
    as [[P1 ->]|[(c1 & h1 & m1 & _ & N1 & _)|(c1 & h1 & m1 & x1 & P1 & ->)]];
    [| now destruct N1 |];
    (destruct (lesson_slot_cases w2 r st i s2)
      as [[P2 ->]|[(c2 & h2 & m2 & _ & N2 & _)|(c2 & h2 & m2 & x2 & P2 & ->)]];
     [| now destruct N2 |]); try congruence.
  - repeat split; assumption.
  - assert (E : (c2, h2, m2) = (c1, h1, m1)) by congruence.
    injection E as -> -> ->.
    repeat split; simpl; try assumption.
    rewrite !map_app, Hsc. reflexivity.
Qed.

Lemma student_row_in_range (w1 w2 : World) (n : Z) (r : row)
    (s1 s2 : students_state) :
  clock_ok w1 -> clock_ok w2 -> same_but_dtstart s1 s2 ->
  fst (student_row w1 n r s1) = fst (student_row w2 n r s2)
  /\ same_but_dtstart (snd (student_row w1 n r s1)) (snd (student_row w2 n r s2)).
Proof.
  intros H1 H2 HR. rewrite !student_row_unfold.
  assert (H0 : same_but_dtstart (with_student (student_of_row n r) s1)
                 (with_student (student_of_row n r) s2)).
  { destruct HR as (Hst & Hsc & Hout). repeat split; simpl; congruence. }
  destruct (lesson_slot_in_range w1 w2 r (student_of_row n r) 1 _ _ H1 H2 H0)
    as (Ha & Hb & HR1).
  destruct (lesson_slot w1 r _ 1 _) as [[[]|?] t1]; [|discriminate].
  destruct (lesson_slot w2 r _ 1 _) as [[[]|?] t2]; [|discriminate].
  simpl in HR1.
  destruct (lesson_slot_in_range w1 w2 r (student_of_row n r) 2 _ _ H1 H2 HR1)
    as (Hc & Hd & HR2).
  destruct (lesson_slot w1 r _ 2 _) as [[[]|?] u1]; [|discriminate].
  destruct (lesson_slot w2 r _ 2 _) as [[[]|?] u2]; [|discriminate].
  split; [reflexivity | exact HR2].
Qed.

Lemma students_put_same_but_dtstart (line : string) (s1 s2 : students_state) :
  same_but_dtstart s1 s2 ->
  same_but_dtstart (students_put line s1) (students_put line s2).
Proof.
  intros (Hst & Hsc & Hout). repeat split; simpl; congruence.
Qed.

(** ** Defaults *)

Lemma safe_get_blank (r : row) (key : string) :
  blank_field r key -> safe_get r key EmptyString = EmptyString.
Proof.
  unfold blank_field, safe_get. destruct (r !! key) as [[value|]|]; trivial.
  intros [H|H]; rewrite H; reflexivity.
Qed.

Lemma get2_blank (r : row) (a b : string) :
  blank_field r a -> blank_field r b -> get2 r a b = EmptyString.
Proof.
  intros Ha Hb. unfold get2. now rewrite (safe_get_blank r a Ha), (safe_get_blank r b Hb).
Qed.

Lemma parse_duration_default (d : string) :
  d = EmptyString \/ py_int d = None -> parse_duration d = 30.
Proof.
  unfold parse_duration. intros [-> | H]; [reflexivity|].
  rewrite H. now destruct (_ && _).
Qed.

(** ** The converters *)

(** C2 (as amended).  Two runs on the same file, read the same way, give the
    same songs, the same lessons and the same students.  They give the same
    schedule, DTSTART included, when the clock shows the same dates in
    both; and the same schedule but for DTSTART when the dates of both
    leave room for the next seven days. *)
Theorem conversion_deterministic (w1 w2 : World) (csv_file : string) :
  same_input w1 w2 ->
  convert_songs_csv_to_json w1 csv_file = convert_songs_csv_to_json w2 csv_file
  /\ convert_notatie_csv_to_json w1 csv_file
     = convert_notatie_csv_to_json w2 csv_file
  /\ fst (convert_students_csv_to_json w1 csv_file)
     = fst (convert_students_csv_to_json w2 csv_file)
  /\ ((forall k, toordinal (now w1 k) = toordinal (now w2 k)) ->
      convert_students_csv_to_json w1 csv_file
      = convert_students_csv_to_json w2 csv_file)
  /\ (clock_ok w1 -> clock_ok w2 ->
      map blank_dtstart (snd (convert_students_csv_to_json w1 csv_file))
      = map blank_dtstart (snd (convert_students_csv_to_json w2 csv_file))).
Proof.
  intros H. split; [|split; [|split; [|split]]].
  - now rewrite !songs_of_input, (input_rows_same w1 w2).
  - now rewrite !lessons_of_input, (input_rows_same w1 w2).
  - destruct (students_of_input w1 csv_file) as (? & -> & _).
    destruct (students_of_input w2 csv_file) as (? & -> & _).
    now rewrite (input_rows_same w1 w2).
  - intros Hdates. unfold convert_students_csv_to_json, students_run.
    rewrite (converter_sim eq students_put w1 w2 (student_row w1) (student_row w2)
               student_warning student_error) with (s2 := students_init);
      trivial.
    + now intros line s1 s2 ->.
    + intros n r s1 s2 ->. now rewrite (student_row_same_date w1 w2).
  - intros H1 H2. unfold convert_students_csv_to_json, students_run. cbn [snd].
    apply (converter_sim same_but_dtstart students_put w1 w2 (student_row w1)
             (student_row w2) student_warning student_error).
    + apply students_put_same_but_dtstart.
    + exact H.
    + intros n r s1 s2 HR. now apply student_row_in_range.
    + now repeat split.
Qed.

Lemma conversion_deterministic_witness :
  convert_songs_csv_to_json (world_of [jan_row] monday_2024) "students.csv"
  = convert_songs_csv_to_json (world_of [jan_row] tuesday_2024) "students.csv"
  /\ map blank_dtstart
       (snd (convert_students_csv_to_json (world_of [jan_row] monday_2024)
               "students.csv"))
     = map blank_dtstart
         (snd (convert_students_csv_to_json (world_of [jan_row] tuesday_2024)
                 "students.csv")).
Proof.
  destruct (conversion_deterministic (world_of [jan_row] monday_2024)
              (world_of [jan_row] tuesday_2024) "students.csv")
    as (Hs & _ & _ & _ & Hb).
  - split; intros; reflexivity.
  - split; [exact Hs|].
    apply Hb; intros k; unfold date_in_range, MAXORDINAL; simpl;
      unfold monday_2024, tuesday_2024; lia.
Defined.

(** C2, as stated, fails: the same file converted on a Monday and on the
    Tuesday after it gives two different DTSTART to the same Tuesday
    lesson. *)
Lemma conversion_deterministic_counterexample :
  same_input (world_of [jan_row] monday_2024) (world_of [jan_row] tuesday_2024)
  /\ map (fun e => DTSTART (entry_ical e))
       (snd (convert_students_csv_to_json (world_of [jan_row] monday_2024)
               "students.csv"))
     = ["20240102T259900"; "20240105T090500"]
  /\ map (fun e => DTSTART (entry_ical e))
       (snd (convert_students_csv_to_json (world_of [jan_row] tuesday_2024)
               "students.csv"))
     = ["20240109T259900"; "20240105T090500"]
  /\ convert_students_csv_to_json (world_of [jan_row] monday_2024) "students.csv"
     <> convert_students_csv_to_json (world_of [jan_row] tuesday_2024)
          "students.csv".
Proof.
  split; [split; intros; reflexivity|].
  split; [reflexivity | split; [reflexivity|]].
  intros H. apply (f_equal snd) in H.
  apply (f_equal (map (fun e => DTSTART (entry_ical e)))) in H.
  vm_compute in H. discriminate.
Qed.

(** C3 (as amended).  In every converter, when the processing of a row
    raises, a warning with the row's number is printed and the loop goes on
    with the next row, from the state the row left.  The songs and notation
    converters append the record of a row as their last step, and nothing
    before it raises.  The students converter appends the student first: a
    row that raises has its student in the list, after the students of the
    rows before it, and at most one entry in the schedule, after the
    entries of the rows before it; only its remaining lessons are lost. *)
Theorem row_error_skipping :
  (forall (S : Type) (put : string -> S -> S) (body : Z -> row -> M S unit)
          (warning : Z -> exn -> string) n r rest st e st1,
     body n r st = (Raise e, st1) ->
     for_rows (guarded put body warning) n (r :: rest) st
     = for_rows (guarded put body warning) (n + 1) rest (put (warning n e) st1))
  /\ (forall n e,
        song_warning n e
        = "Warning: Error processing song row " +:+ str_of_Z n +:+ ": "
          +:+ exn_text e
        /\ lesson_warning n e
           = "Warning: Error processing notation row " +:+ str_of_Z n +:+ ": "
             +:+ exn_text e
        /\ student_warning n e
           = "Warning: Error processing student row " +:+ str_of_Z n +:+ ": "
             +:+ exn_text e)
  /\ (forall n r st,
        song_row n r st
        = (Ok tt, {| songs := songs st ++ [song_of_row n r];
                     songs_stdout := songs_stdout st |}))
  /\ (forall n r st,
        lesson_row n r st
        = (Ok tt, {| lessons := lessons st ++ [lesson_of_row n r];
                     lessons_stdout := lessons_stdout st |}))
  /\ (forall w n r st e st1,
        student_row w n r st = (Raise e, st1) ->
        students st1 = students st ++ [student_of_row n r]
        /\ (exists es, schedule st1 = schedule st ++ es /\ (length es <= 1)%nat)
        /\ students_stdout st1 = students_stdout st
        /\ e = overflow_error).
Proof.
  split; [|split; [|split; [|split]]].
  - intros S put body warning n r rest st e st1 H.
    rewrite for_rows_cons, guarded_step, H. reflexivity.
  - intros n e. repeat split.
  - reflexivity.
  - reflexivity.
  - intros w n r st e st1 H.
    destruct (student_row_effect w n r st)
      as (es & Hst & Hsc & Hout & _ & _ & Hres).
    rewrite H in *. cbn [fst snd] in *.
    destruct Hres as [Hres|[Hres Hlen]]; [discriminate|].
    injection Hres as ->. eauto 6.
Qed.

Lemma row_error_skipping_witness :
  students
    (snd (student_row (world_of [jan_row] thursday_9999) 1 jan_row students_init))
  = [student_of_row 1 jan_row]
  /\ for_rows
       (guarded students_put (student_row (world_of [jan_row] thursday_9999))
          student_warning) 1 [jan_row; jan_row] students_init
     = for_rows
         (guarded students_put (student_row (world_of [jan_row] thursday_9999))
            student_warning) 2 [jan_row]
         (students_put (student_warning 1 overflow_error)
            (snd (student_row (world_of [jan_row] thursday_9999) 1 jan_row
                    students_init))).
Proof.
  destruct row_error_skipping as (Hloop & _ & _ & _ & Hrow).
  assert (E : student_row (world_of [jan_row] thursday_9999) 1 jan_row students_init
              = (Raise overflow_error,
                 snd (student_row (world_of [jan_row] thursday_9999) 1 jan_row
                        students_init))) by reflexivity.
  split.
  - now destruct (Hrow _ _ _ _ _ _ E) as (-> & _).
  - exact (Hloop _ students_put _ student_warning 1 jan_row [jan_row]
             students_init _ _ E).
Defined.

(** C3, as stated, fails for the students converter: on the last days of
    the year 9999 the date of the next lesson does not exist, the row
    raises and its warning is printed, and yet the student of the row is
    in the result. *)
Lemma row_error_skipping_counterexample :
  fst (student_row (world_of [jan_row] thursday_9999) 1 jan_row students_init)
  = Raise overflow_error
  /\ convert_students_csv_to_json (world_of [jan_row] thursday_9999) "students.csv"
     = ([student_of_row 1 jan_row], [])
  /\ students_stdout (students_run (world_of [jan_row] thursday_9999) "students.csv")
     = [ "Successfully read students.csv with latin-1 encoding";
         "Warning: Error processing student row 1: date value out of range" ].
Proof.
  split; [|split]; reflexivity.
Qed.

(** C4.  For a lesson whose day name is in the table, with code [code], and
    whose time parses to [h] and [m]: an entry this lesson appends has the
    frequency WEEKLY and the rule FREQ=WEEKLY;BYDAY=code;BYHOUR=h;BYMINUTE=m;
    BYSECOND=0, the code being one of the seven two-letter codes; the entry
    is appended whenever the date of the run leaves room for the next seven
    days.  A lesson whose day name is not in the table appends nothing.
    Every entry of the schedule a run returns has that frequency and a rule
    of that form for its own day code. *)
Theorem calendar_rule (w : World) (r : row) (st : student) (i : Z)
    (s : students_state) :
  (forall code a b h m,
     day_mapping !! strip (lower (slot_day r i)) = Some code ->
     split_char ":" (replace_char "." ":" (slot_time r i)) = [a; b] ->
     py_int a = Some h -> py_int b = Some m ->
     (In code day_codes /\ String.length code = 2%nat)
     /\ (forall e,
           schedule (snd (lesson_slot w r st i s)) = schedule s ++ [e] ->
           entry_frequency e = "WEEKLY"
           /\ RRULE (entry_ical e)
              = "FREQ=WEEKLY;BYDAY=" +:+ code +:+ ";BYHOUR=" +:+ str_of_Z h
                +:+ ";BYMINUTE=" +:+ str_of_Z m +:+ ";BYSECOND=0")
     /\ (date_in_range (now w (clock_calls s)) ->
         exists e,
           lesson_slot w r st i s = (Ok tt, add_entry e (tick s))
           /\ entry_dayOfWeek e = code
           /\ entry_frequency e = "WEEKLY"
           /\ RRULE (entry_ical e)
              = "FREQ=WEEKLY;BYDAY=" +:+ code +:+ ";BYHOUR=" +:+ str_of_Z h
                +:+ ";BYMINUTE=" +:+ str_of_Z m +:+ ";BYSECOND=0"))
  /\ (day_mapping !! strip (lower (slot_day r i)) = None ->
      lesson_slot w r st i s = (Ok tt, s))
  /\ (forall csv_file,
        Forall (fun e =>
                  entry_frequency e = "WEEKLY"
                  /\ In (entry_dayOfWeek e) day_codes
                  /\ exists h m,
                       RRULE (entry_ical e)
                       = "FREQ=WEEKLY;BYDAY=" +:+ entry_dayOfWeek e
                         +:+ ";BYHOUR=" +:+ str_of_Z h
                         +:+ ";BYMINUTE=" +:+ str_of_Z m +:+ ";BYSECOND=0")
          (snd (convert_students_csv_to_json w csv_file))).
Proof.
  split; [|split].
  - intros code a b h m Hd Hs Ha Hb.
    pose proof (slot_plan_intro r i code a b h m Hd Hs Ha Hb) as Hp.
    split; [|split].
    + now destruct (day_mapping_code _ _ Hd) as (_ & _ & _ & _ & ? & ?).
    + intros e He.
      apply lesson_slot_appended in He as (c' & h' & m' & next & Hp' & ->).
      rewrite Hp in Hp'. injection Hp' as <- <- <-. now split.
    + intros Hr.
      destruct (lesson_slot_in_range_emits w r st i s code h m Hp Hr)
        as [next ->].
      eexists. split; [reflexivity|]. now repeat split.
  - intros Hd. apply lesson_slot_skip. unfold slot_plan. now rewrite Hd.
  - intros csv_file. apply schedule_entries_from_rows.
    intros n r' e (j & code & h & m & next & _ & Hp & ->).
    apply slot_plan_day, day_mapping_code in Hp as (_ & _ & _ & _ & Hin & _).
    split; [reflexivity | split; [exact Hin | now exists h, m]].
Qed.

Lemma calendar_rule_witness :
  exists e,
    lesson_slot (world_of [jan_row] monday_2024) jan_row
      (student_of_row 1 jan_row) 2 students_init
    = (Ok tt, add_entry e (tick students_init))
    /\ entry_dayOfWeek e = "FR"
    /\ entry_frequency e = "WEEKLY"
    /\ RRULE (entry_ical e)
       = "FREQ=WEEKLY;BYDAY=FR;BYHOUR=9;BYMINUTE=5;BYSECOND=0".
Proof.
  destruct (calendar_rule (world_of [jan_row] monday_2024) jan_row
              (student_of_row 1 jan_row) 2 students_init) as (H & _ & _).
  destruct (H "FR" "9" "05" 9 5) as (_ & _ & He); try reflexivity.
  apply He. unfold date_in_range, MAXORDINAL. simpl. unfold monday_2024. lia.
Defined.

Lemma world_of_decoding (rows : list row) (day : Z) (csv_file : string) :
  first_decoding (world_of rows day) csv_file "latin-1" "text".
Proof.
  exists ["utf-8"], ["cp1252"; "iso-8859-1"].
  split; [reflexivity | split; [|reflexivity]].
  constructor; [|constructor]. now exists decode_error.
Qed.

(** C5.  The encodings are tried in the order utf-8, latin-1, cp1252,
    iso-8859-1, and each converter converts the rows of the text that the
    first of them to decode the file yields; when no attempt to read the
    file succeeds, each converter prints the error and returns an empty
    result; and no converter lets an exception reach its caller. *)
Theorem encoding_fallback (w : World) (csv_file : string) :
  encodings = ["utf-8"; "latin-1"; "cp1252"; "iso-8859-1"]
  /\ (forall enc text,
        first_decoding w csv_file enc text ->
        convert_songs_csv_to_json w csv_file
        = songs_of_rows 1 (fst (DictReader w text))
        /\ convert_notatie_csv_to_json w csv_file
           = lessons_of_rows 1 (fst (DictReader w text))
        /\ fst (convert_students_csv_to_json w csv_file)
           = students_of_rows 1 (fst (DictReader w text)))
  /\ (unreadable w csv_file ->
        (convert_songs_csv_to_json w csv_file = []
         /\ exists e, songs_stdout (songs_run w csv_file) = [song_error e])
        /\ (convert_notatie_csv_to_json w csv_file = []
            /\ exists e, lessons_stdout (lessons_run w csv_file) = [lesson_error e])
        /\ (convert_students_csv_to_json w csv_file = ([], [])
            /\ exists e, students_stdout (students_run w csv_file)
                         = [student_error e]))
  /\ (fst (converter songs_put w csv_file song_row song_warning song_error
             {| songs := []; songs_stdout := [] |}) = Ok tt
      /\ fst (converter lessons_put w csv_file lesson_row lesson_warning
                lesson_error {| lessons := []; lessons_stdout := [] |}) = Ok tt
      /\ fst (converter students_put w csv_file (student_row w) student_warning
                student_error students_init) = Ok tt).
Proof.
  split; [reflexivity|]. split; [|split].
  - intros enc text H.
    pose proof (decode_any_decoded w csv_file enc text H) as D.
    rewrite songs_of_input, lessons_of_input.
    destruct (students_of_input w csv_file) as (ess & -> & _).
    unfold input_rows. now rewrite D.
  - intros H. pose proof (decode_any_unreadable w csv_file H) as D.
    split; [|split].
    + unfold convert_songs_csv_to_json. rewrite songs_run_eq.
      destruct (decode_any w csv_file encodings) as [enc text|e|];
        [now destruct (D enc text) | eauto | eauto].
    + unfold convert_notatie_csv_to_json. rewrite lessons_run_eq.
      destruct (decode_any w csv_file encodings) as [enc text|e|];
        [now destruct (D enc text) | eauto | eauto].
    + unfold convert_students_csv_to_json.
      destruct (students_unread w csv_file D) as [e ->]. eauto.
  - repeat split; apply converter_ok.
Qed.

Lemma encoding_fallback_witness :
  convert_songs_csv_to_json (world_of [untitled_row] monday_2024) "songs.csv"
  = songs_of_rows 1 [untitled_row]
  /\ convert_students_csv_to_json world_without_file "students.csv" = ([], []).
Proof.
  split.
  - destruct (encoding_fallback (world_of [untitled_row] monday_2024) "songs.csv")
      as (_ & H & _).
    apply (H "latin-1" "text"). apply world_of_decoding.
  - destruct (encoding_fallback world_without_file "students.csv")
      as (_ & _ & H & _).
    apply H. repeat constructor; now exists missing_file.
Defined.

(** C6.  A song row without a usable title in either title column gets the
    title Song # and its row number, and without a usable artist in either
    artist column the artist Unknown Artist; a notation row without a
    category, or without a sequence number (so also one with none of
    category, chapter and sequence number) gets the title Pattern # and its
    row number; an entry whose duration field is missing, nan or no integer
    lasts 30 minutes. *)
Theorem defaults_applied :
  (forall n r,
     blank_field r "soTitel" -> blank_field r "titel" ->
     song_title (song_of_row n r) = "Song #" +:+ str_of_Z n)
  /\ (forall n r,
        blank_field r "soArtiest" -> blank_field r "artiest" ->
        song_artist (song_of_row n r) = "Unknown Artist")
  /\ (forall n r,
        (blank_field r "noCategorie" /\ blank_field r "categorie")
        \/ (blank_field r "noVolgnummer" /\ blank_field r "volgnummer") ->
        lesson_title (lesson_of_row n r) = "Pattern #" +:+ str_of_Z n)
  /\ (forall w r st i s e,
        blank_field r ("stLesduur" +:+ str_of_Z i)
        \/ py_int (slot_duration r i) = None ->
        schedule (snd (lesson_slot w r st i s)) = schedule s ++ [e] ->
        entry_durationMin e = 30).
Proof.
  split; [|split; [|split]].
  - intros n r Ha Hb. unfold song_of_row. cbn [song_title].
    now rewrite (get2_blank r _ _ Ha Hb).
  - intros n r Ha Hb. unfold song_of_row. cbn [song_artist].
    now rewrite (get2_blank r _ _ Ha Hb).
  - intros n r H. unfold lesson_of_row. cbn [lesson_title].
    destruct H as [[Ha Hb]|[Ha Hb]]; rewrite (get2_blank r _ _ Ha Hb);
      cbn [truthy String.eqb negb andb]; [reflexivity|].
    now rewrite !andb_false_r.
  - intros w r st i s e Hd He.
    apply lesson_slot_appended in He as (code & h & m & next & _ & ->).
    cbn [slot_entry entry_durationMin]. apply parse_duration_default.
    destruct Hd as [Hd|Hd]; [left | now right].
    now apply safe_get_blank.
Qed.

Lemma defaults_applied_witness :
  song_title (song_of_row 7 untitled_row) = "Song #7"
  /\ song_artist (song_of_row 7 untitled_row) = "Unknown Artist"
  /\ lesson_title (lesson_of_row 3 untitled_row) = "Pattern #3"
  /\ forall e,
       schedule (snd (lesson_slot (world_of [jan_row] monday_2024) jan_row
                        (student_of_row 1 jan_row) 1 students_init)) = [e] ->
       entry_durationMin e = 30.
Proof.
  destruct defaults_applied as (Ht & Ha & Hl & Hd).
  split; [|split; [|split]].
  - now apply (Ht 7 untitled_row).
  - now apply (Ha 7 untitled_row).
  - apply (Hl 3 untitled_row). now left.
  - intros e He.
    apply (Hd (world_of [jan_row] monday_2024) jan_row
              (student_of_row 1 jan_row) 1 students_init e); [|exact He].
    now left.
Defined.

(** C7 (as amended).  Each converter goes through the rows once: the songs,
    the lessons and the students are, in the order of the rows, one record
    per row, made from the row's fields and its number, counted from 1;
    the schedule is, in the order of the rows, the entries of each row, at
    most two, each made from the row's fields and number and from the date
    of its next occurrence. *)
Theorem single_pass_order_preserving (w : World) (csv_file : string) :
  convert_songs_csv_to_json w csv_file
  = map (fun nr => song_of_row (fst nr) (snd nr))
        (enumerate 1 (input_rows w csv_file))
  /\ convert_notatie_csv_to_json w csv_file
     = map (fun nr => lesson_of_row (fst nr) (snd nr))
           (enumerate 1 (input_rows w csv_file))
  /\ fst (convert_students_csv_to_json w csv_file)
     = map (fun nr => student_of_row (fst nr) (snd nr))
           (enumerate 1 (input_rows w csv_file))
  /\ exists ess,
       snd (convert_students_csv_to_json w csv_file) = concat ess
       /\ Forall2 (fun nr es => Forall (from_row (fst nr) (snd nr)) es
                                /\ (length es <= 2)%nat)
            (enumerate 1 (input_rows w csv_file)) ess.
Proof.
  split; [apply songs_of_input | split; [apply lessons_of_input|]].
  destruct (students_of_input w csv_file) as (ess & H1 & H2 & H3).
  split; [exact H1 | eauto].
Qed.

(** C7, as stated, fails: two rows with the same fields give two different
    songs, so a record is not made from the fields of its row alone. *)
Lemma single_pass_order_preserving_counterexample :
  input_rows (world_of [untitled_row; untitled_row] monday_2024) "songs.csv"
  = [untitled_row; untitled_row]
  /\ map song_title
       (convert_songs_csv_to_json
          (world_of [untitled_row; untitled_row] monday_2024) "songs.csv")
     = ["Song #1"; "Song #2"]
  /\ ~ exists f : row -> song,
         forall w csv_file,
           convert_songs_csv_to_json w csv_file = map f (input_rows w csv_file).
Proof.
  split; [reflexivity | split; [reflexivity|]].
  intros [f H].
  specialize (H (world_of [untitled_row; untitled_row] monday_2024) "songs.csv").
  apply (f_equal (map song_title)) in H. vm_compute in H.
  injection H as H1 H2. congruence.
Qed.



(** C10.  Every song has the instrument drums and the level all; every
    lesson has the content type notation, the instrument drums and the
    level all; every student has the instrument drums; every entry of the
    schedule has the time zone Europe/Amsterdam, also as its TZID. *)
Theorem constant_fields (w : World) (csv_file : string) :
  Forall (fun s => song_instrument s = "drums" /\ song_level s = "all")
    (convert_songs_csv_to_json w csv_file)
  /\ Forall (fun l => lesson_contentType l = "notation"
                      /\ lesson_instrument l = "drums" /\ lesson_level l = "all")
       (convert_notatie_csv_to_json w csv_file)
  /\ Forall (fun s => student_instrument s = "drums")
       (fst (convert_students_csv_to_json w csv_file))
  /\ Forall (fun e => entry_timezone e = "Europe/Amsterdam"
                      /\ TZID (entry_ical e) = "Europe/Amsterdam")
       (snd (convert_students_csv_to_json w csv_file)).
Proof.
  rewrite songs_of_input, lessons_of_input.
  split; [|split; [|split]].
  - apply Forall_map, Forall_forall. now intros.
  - apply Forall_map, Forall_forall. now intros.
  - destruct (students_of_input w csv_file) as (ess & -> & _).
    apply Forall_map, Forall_forall. now intros.
  - apply schedule_entries_from_rows.
    intros n r e (i & code & h & m & next & _ & _ & ->). now split.
Qed.

(** * More of the script *)

(** ** Fields and normalized text *)

(** X1.  The field [safe_get] returns, with the empty default, is trimmed
    and is never nan in any case; it is empty exactly when the row has no
    usable field under the key. *)
Theorem safe_get_clean (r : row) (key : string) :
  strip (safe_get r key EmptyString) = safe_get r key EmptyString
  /\ lower (safe_get r key EmptyString) <> "nan"
  /\ (safe_get r key EmptyString = EmptyString <-> blank_field r key).
Proof.
  unfold safe_get, blank_field. destruct (r !! key) as [[value|]|].
  - destruct (String.eqb_spec (lower (strip value)) "nan") as [E|E].
    + repeat split; try discriminate; auto.
    + split; [apply strip_idem | split; [exact E|]].
      split; [now left | now intros [H|H]].
  - repeat split; try discriminate; auto.
  - repeat split; try discriminate; auto.
Qed.

(** X2.  The result of [normalize_groovescribe] is trimmed, and it is
    empty exactly when the input is empty or all white space, or is nan in
    any case once trimmed. *)
Theorem normalize_groovescribe_clean (input_str : string) :
  strip (normalize_groovescribe input_str) = normalize_groovescribe input_str
  /\ (normalize_groovescribe input_str = EmptyString
      <-> strip input_str = EmptyString \/ lower (strip input_str) = "nan").
Proof.
  rewrite normalize_unfold.
  destruct (String.eqb_spec input_str EmptyString) as [->|Hne];
    [split; [reflexivity | split; auto]|].
  destruct (String.eqb_spec (lower (strip input_str)) "nan") as [E|E];
    cbn [orb]; [split; [reflexivity | split; auto]|].
  destruct (groove_core_cases (strip input_str)) as [H | (q & H & _)];
    rewrite H.
  - split; [apply strip_idem|]. split; [now left | now intros [?|?]].
  - split; [apply strip_canonical|].
    split; [discriminate|]. intros [H0|H0]; [|contradiction].
    rewrite H0 in H. discriminate.
Qed.

(** ** The students converter *)

Lemma weekday_add_days (position : Z) (today next : datetime) :
  0 <= position <= 6 ->
  add_days today (days_ahead position today) = Some next ->
  weekday next = position
  /\ toordinal today < toordinal next <= toordinal today + 7.
Proof.
  intros Hp. unfold add_days.
  pose proof (days_ahead_range position today) as Hd.
  destruct (_ && _); [|discriminate]. intros [= <-]. cbn [toordinal].
  split; [|lia]. unfold days_ahead, weekday in *. cbn [toordinal].
  destruct (Z.eqb_spec ((position - (toordinal today + 6) mod 7) mod 7) 0);
    Z.div_mod_to_equations; lia.
Qed.

(** X3.  The date of a lesson's DTSTART is the first day after the day of
    the run that falls on the lesson's day of the week: it is at most
    seven days ahead, and a lesson on the run's own day of the week starts
    a week later, never on the day of the run. *)
Theorem next_occurrence_date (w : World) (r : row) (st : student) (i : Z)
    (s s' : students_state) (code : string) (h m : Z) :
  slot_plan r i = Some (code, h, m) ->
  lesson_slot w r st i s = (Ok tt, s') ->
  exists position next,
    index_of code day_codes = Some position
    /\ weekday next = position
    /\ toordinal (now w (clock_calls s)) < toordinal next
       <= toordinal (now w (clock_calls s)) + 7
    /\ s' = add_entry (slot_entry st r i code h m next) (tick s).
Proof.
  intros Hp Hs.
  destruct (lesson_slot_emit w r st i s code h m Hp) as (pos & Hpos & Hr & E).
  rewrite E in Hs. cbv zeta in Hs.
  destruct (add_days _ _) as [next|] eqn:Hadd; [|discriminate].
  injection Hs as <-. exists pos, next.
  destruct (weekday_add_days pos _ next Hr Hadd) as [Hw Hn]. auto.
Qed.

Lemma next_occurrence_date_witness :
  exists position next,
    index_of "TU" day_codes = Some position
    /\ weekday next = position
    /\ tuesday_2024 < toordinal next <= tuesday_2024 + 7
    /\ snd (lesson_slot (world_of [jan_row] tuesday_2024) jan_row
              (student_of_row 1 jan_row) 1 students_init)
       = add_entry (slot_entry (student_of_row 1 jan_row) jan_row 1 "TU" 25 99 next)
           (tick students_init).
Proof.
  destruct (next_occurrence_date (world_of [jan_row] tuesday_2024) jan_row
              (student_of_row 1 jan_row) 1 students_init
              (snd (lesson_slot (world_of [jan_row] tuesday_2024) jan_row
                      (student_of_row 1 jan_row) 1 students_init)) "TU" 25 99)
    as (position & next & H1 & H2 & H3 & H4); [reflexivity | reflexivity |].
  exists position, next. auto.
Defined.

Lemma entries_of_rows (rows : list (Z * row)) (ess : list (list schedule_entry))
    (e : schedule_entry) :
  Forall2 (fun nr es => Forall (from_row (fst nr) (snd nr)) es
                        /\ (length es <= 2)%nat) rows ess ->
  In e (concat ess) ->
  exists n r, In (n, r) rows /\ from_row n r e.
Proof.
  induction 1 as [|[n r] es rows ess [Hes _] _ IH]; simpl; [contradiction|].
  rewrite in_app_iff. intros [He|He].
  - exists n, r. split; [now left|].
    rewrite Forall_forall in Hes. apply Hes. now apply list_elem_of_In.
  - destruct (IH He) as (n' & r' & Hin & Hf). exists n', r'. auto.
Qed.

(** X4.  Every entry of the schedule belongs to a student of the result:
    it carries the id and the full name of a student in the list of
    students the same run returns. *)
Theorem schedule_refers_to_students (w : World) (csv_file : string) :
  Forall (fun e =>
            exists st, In st (fst (convert_students_csv_to_json w csv_file))
                       /\ entry_studentId e = student_id st
                       /\ entry_studentName e = student_fullName st)
    (snd (convert_students_csv_to_json w csv_file)).
Proof.
  destruct (students_of_input w csv_file) as (ess & -> & -> & HF).
  apply Forall_forall. intros e He. apply list_elem_of_In in He.
  destruct (entries_of_rows _ _ e HF He)
    as (n & r & Hin & i & code & h & m & next & _ & _ & ->).
  exists (student_of_row n r). split; [|split; reflexivity].
  unfold students_of_rows. apply in_map_iff. now exists (n, r).
Qed.

Lemma student_row_stdout (w : World) (n : Z) (r : row) (s : students_state) :
  students_stdout (snd (student_row w n r s)) = students_stdout s.
Proof. now destruct (student_row_effect w n r s) as (es & _ & _ & H & _). Qed.

(** The loop over the rows only adds lines to the standard output. *)
Lemma students_rows_stdout (w : World) (rows : list row) (n : Z)
    (s : students_state) :
  exists lines,
    students_stdout
      (snd (for_rows (guarded students_put (student_row w) student_warning)
              n rows s))
    = students_stdout s ++ lines.
Proof.
  revert n s. induction rows as [|r rows IH]; intros n s.
  - exists []. simpl. now rewrite app_nil_r.
  - rewrite for_rows_cons, guarded_step.
    pose proof (student_row_stdout w n r s) as Hs.
    destruct (student_row w n r s) as [[[]|e] s1]; simpl in Hs; cbn [snd].
    + destruct (IH (n + 1) s1) as [lines ->]. exists lines. now rewrite Hs.
    + destruct (IH (n + 1) (students_put (student_warning n e) s1))
        as [lines ->].
      exists (student_warning n e :: lines). cbn [students_put students_stdout].
      now rewrite Hs, <- app_assoc.
Qed.

Lemma none_if_blank_safe_get (r : row) (key : string) :
  none_if_blank (safe_get r key EmptyString)
  = if truthy (safe_get r key EmptyString)
    then Some (safe_get r key EmptyString) else None.
Proof.
  unfold none_if_blank.
  destruct (safe_get_clean r key) as (_ & Hnan & _).
  destruct (truthy _); [|reflexivity].
  destruct (String.eqb_spec (safe_get r key EmptyString) "nan") as [E|_];
    [|reflexivity].
  rewrite E in Hnan. now destruct Hnan.
Qed.

(** X5.  The optional fields of a student (email, city, notes) are absent
    exactly when the row has no usable field for them, and a present one is
    trimmed, not empty and not nan; a schedule entry carries the same
    email and notes, except that a missing email is the empty string
    there. *)
Theorem student_optional_fields (n : Z) (r : row) :
  optional_of r "stEmail" (student_email (student_of_row n r))
  /\ optional_of r "stWoonplaats" (student_city (student_of_row n r))
  /\ optional_of r "stOpmerkingen" (student_notes (student_of_row n r))
  /\ (forall e, from_row n r e ->
                entry_email e = default EmptyString (student_email (student_of_row n r))
                /\ entry_notes e = student_notes (student_of_row n r)).
Proof.
  assert (O : forall key,
            optional_of r key (none_if_blank (safe_get r key EmptyString))).
  { intros key. unfold optional_of. rewrite none_if_blank_safe_get.
    destruct (safe_get_clean r key) as (Hs & Hnan & Hb).
    destruct (truthy _) eqn:T.
    - apply truthy_true in T. split.
      + split; [discriminate|]. intros B. now apply Hb in B.
      + intros v [= <-]. auto.
    - apply truthy_false in T. split.
      + split; [|reflexivity]. intros _. now apply Hb.
      + discriminate. }
  split; [apply O | split; [apply O | split; [apply O|]]].
  intros e (i & code & h & m & next & _ & _ & ->).
  cbn [slot_entry entry_email entry_notes student_of_row student_email
       student_notes].
  split; [|reflexivity]. rewrite none_if_blank_safe_get.
  destruct (truthy _) eqn:T; [reflexivity|]. now apply truthy_false in T.
Qed.

Lemma student_optional_fields_witness :
  from_row 1 jan_row
    (slot_entry (student_of_row 1 jan_row) jan_row 2 "FR" 9 5
       {| toordinal := monday_2024; time_of_day := 0 |})
  /\ entry_email
       (slot_entry (student_of_row 1 jan_row) jan_row 2 "FR" 9 5
          {| toordinal := monday_2024; time_of_day := 0 |}) = EmptyString
  /\ entry_notes
       (slot_entry (student_of_row 1 jan_row) jan_row 2 "FR" 9 5
          {| toordinal := monday_2024; time_of_day := 0 |}) = None.
Proof.
  assert (He : from_row 1 jan_row
                 (slot_entry (student_of_row 1 jan_row) jan_row 2 "FR" 9 5
                    {| toordinal := monday_2024; time_of_day := 0 |})).
  { exists 2, "FR", 9, 5, {| toordinal := monday_2024; time_of_day := 0 |}.
    split; [now right|]. split; [vm_compute|]; reflexivity. }
  split; [exact He|].
  destruct (student_optional_fields 1 jan_row) as (_ & _ & _ & H).
  exact (H _ He).
Defined.

(** X6.  A reader error in the middle of the file does not discard what
    was converted before it: each converter returns the records of the rows
    read before the error, and the error is the last line it prints. *)
Theorem reader_error_keeps_rows (w : World) (csv_file enc text : string)
    (rows : list row) (e : exn) :
  first_decoding w csv_file enc text ->
  DictReader w text = (rows, Some e) ->
  (convert_songs_csv_to_json w csv_file = songs_of_rows 1 rows
   /\ songs_stdout (songs_run w csv_file) = [read_line csv_file enc; song_error e])
  /\ (convert_notatie_csv_to_json w csv_file = lessons_of_rows 1 rows
      /\ lessons_stdout (lessons_run w csv_file)
         = [read_line csv_file enc; lesson_error e])
  /\ (fst (convert_students_csv_to_json w csv_file) = students_of_rows 1 rows
      /\ exists lines,
           students_stdout (students_run w csv_file)
           = read_line csv_file enc :: lines ++ [student_error e]).
Proof.
  intros Hd Hr. pose proof (decode_any_decoded w csv_file enc text Hd) as D.
  split; [|split].
  - unfold convert_songs_csv_to_json. rewrite songs_run_eq, D, Hr. now split.
  - unfold convert_notatie_csv_to_json. rewrite lessons_run_eq, D, Hr. now split.
  - split.
    + destruct (students_of_input w csv_file) as (ess & -> & _).
      unfold input_rows. now rewrite D, Hr.
    + unfold students_run. rewrite converter_run, D, Hr. cbn [fst snd].
      unfold after_rows.
      destruct (students_rows_stdout w rows 1
                  (students_put (read_line csv_file enc) students_init))
        as [lines E].
      unfold read_line in *. exists lines.
      cbn [students_put students_stdout]. now rewrite E.
Qed.

Lemma reader_error_keeps_rows_witness :
  convert_songs_csv_to_json (world_broken [untitled_row] monday_2024) "songs.csv"
  = songs_of_rows 1 [untitled_row]
  /\ songs_stdout (songs_run (world_broken [untitled_row] monday_2024) "songs.csv")
     = [ "Successfully read songs.csv with utf-8 encoding";
         "Error reading songs CSV: field larger than field limit (1000000)" ].
Proof.
  destruct (reader_error_keeps_rows (world_broken [untitled_row] monday_2024)
              "songs.csv" "utf-8" "text" [untitled_row] csv_error)
    as (H & _); [|reflexivity | exact H].
  exists [], ["latin-1"; "cp1252"; "iso-8859-1"].
  split; [reflexivity | split; [constructor | reflexivity]].
Defined.






(** ** Numbers and the start time *)

Lemma str_app_nil_r (s : string) : s +:+ EmptyString = s.
Proof. induction s as [|c s IH]; simpl; [reflexivity | now rewrite IH]. Qed.

Lemma digit_char_digit (d : Z) :
  0 <= d <= 9 -> is_digit (digit_char d) = true /\ digit_val (digit_char d) = d.
Proof.
  intros H.
  assert (E : d = 0 \/ d = 1 \/ d = 2 \/ d = 3 \/ d = 4 \/ d = 5 \/ d = 6
              \/ d = 7 \/ d = 8 \/ d = 9) by lia.
  repeat (destruct E as [->|E]; [now split|]). subst. now split.
Qed.

Lemma digit_facts (c : ascii) :
  is_digit c = true ->
  is_int_space c = false /\ Ascii.eqb c ":" = false
  /\ Ascii.eqb c "+" = false /\ Ascii.eqb c "-" = false.
Proof.
  destruct c as [[] [] [] [] [] [] [] []]; intros H; try discriminate H;
    repeat split.
Qed.

Lemma all_digits_app (a b : string) :
  all_digits (a +:+ b) = all_digits a && all_digits b.
Proof.
  induction a as [|c a IH]; simpl; [reflexivity|]. now rewrite IH, andb_assoc.
Qed.

(** The digits [digits_fuel] puts before its accumulator, read back. *)
Lemma digits_fuel_read (f : nat) (n : Z) (t : string) :
  0 <= n < 2 ^ Z.of_nat (Datatypes.S f) ->
  exists ds k,
    digits_fuel (Datatypes.S f) n t = ds +:+ t
    /\ all_digits ds = true /\ ds <> EmptyString /\ 0 <= k
    /\ forall u a prev,
         int_digits (ds +:+ u) a prev = int_digits u (a * 10 ^ k + n) true.
Proof.
  revert n t. induction f as [|f IH]; intros n t Hn;
    cbn [digits_fuel]; destruct (Z.ltb_spec n 10) as [Hlt|Hge].
  - destruct (digit_char_digit (n mod 10)) as [Hd Hv];
      [Z.div_mod_to_equations; lia|].
    exists (String (digit_char (n mod 10)) EmptyString), 1.
    repeat split; try (simpl; now rewrite Hd); try discriminate; try lia.
    intros u a prev. cbn [String.append int_digits]. rewrite Hd, Hv.
    f_equal. Z.div_mod_to_equations; lia.
  - change (2 ^ Z.of_nat 1) with 2 in Hn. lia.
  - destruct (digit_char_digit (n mod 10)) as [Hd Hv];
      [Z.div_mod_to_equations; lia|].
    exists (String (digit_char (n mod 10)) EmptyString), 1.
    repeat split; try (simpl; now rewrite Hd); try discriminate; try lia.
    intros u a prev. cbn [String.append int_digits]. rewrite Hd, Hv.
    f_equal. Z.div_mod_to_equations; lia.
  - destruct (digit_char_digit (n mod 10)) as [Hd Hv];
      [Z.div_mod_to_equations; lia|].
    destruct (IH (n / 10) (String (digit_char (n mod 10)) t))
      as (ds & k & E & Ha & Hne & Hk & Hr).
    { rewrite Nat2Z.inj_succ, Z.pow_succ_r in Hn by lia.
      Z.div_mod_to_equations; lia. }
    exists (ds +:+ String (digit_char (n mod 10)) EmptyString), (k + 1).
    split; [|split; [|split; [|split]]].
    + cbn [digits_fuel] in E. rewrite E, str_app_assoc. reflexivity.
    + rewrite all_digits_app, Ha. simpl. now rewrite Hd.
    + destruct ds; [contradiction | discriminate].
    + lia.
    + intros u a prev. rewrite str_app_assoc. cbn [String.append].
      rewrite Hr. cbn [int_digits]. rewrite Hd, Hv. f_equal.
      rewrite Z.pow_add_r by lia. Z.div_mod_to_equations; nia.
Qed.

Lemma strip_by_all (p : ascii -> bool) (s : string) :
  (forall c, is_digit c = true -> p c = false) ->
  all_digits s = true ->
  lstrip_by p s = s /\ rstrip_by p s = s.
Proof.
  intros Hp. induction s as [|c s IH]; [now split|]. cbn [all_digits].
  intros H. apply andb_true_iff in H as [Hc Hs]. destruct (IH Hs) as [_ Hr].
  cbn [lstrip_by rstrip_by]. rewrite Hr, (Hp c Hc). split; [reflexivity|].
  now destruct s.
Qed.

Lemma py_int_all_digits (s : string) :
  all_digits s = true -> py_int s = int_digits s 0 false.
Proof.
  intros H. unfold py_int.
  destruct (strip_by_all is_int_space s) as [-> ->]; trivial.
  { intros c Hc. now apply digit_facts. }
  destruct s as [|c r]; [reflexivity|]. cbn [all_digits] in H.
  apply andb_true_iff in H as [Hc _].
  destruct c as [[] [] [] [] [] [] [] []]; try discriminate Hc; reflexivity.
Qed.

(** The decimal digits of a natural number. *)
Lemma str_of_Z_digits (n : Z) :
  0 <= n ->
  all_digits (str_of_Z n) = true /\ str_of_Z n <> EmptyString
  /\ int_digits (str_of_Z n) 0 false = Some n
  /\ forall a prev, exists k,
       int_digits (str_of_Z n) a prev = Some (a * 10 ^ k + n).
Proof.
  intros Hn. unfold str_of_Z. destruct (Z.ltb_spec n 0) as [?|_]; [lia|].
  destruct (digits_fuel_read (Z.to_nat (Z.log2 n)) n EmptyString)
    as (ds & k & -> & Ha & Hne & Hk & Hr).
  { rewrite Nat2Z.inj_succ, Z2Nat.id by apply Z.log2_nonneg.
    destruct (Z.eq_dec n 0) as [->|Hz]; [now split|].
    pose proof (Z.log2_spec n ltac:(lia)). lia. }
  rewrite str_app_nil_r. split; [exact Ha | split; [exact Hne|]].
  assert (R : forall a prev, int_digits ds a prev = Some (a * 10 ^ k + n)).
  { intros a prev. rewrite <- (str_app_nil_r ds) at 1. now rewrite Hr. }
  split; [now rewrite R | intros a prev; exists k; apply R].
Qed.

Lemma py_int_str_of_Z (n : Z) : py_int (str_of_Z n) = Some n.
Proof.
  destruct (Z.ltb_spec n 0) as [Hneg|Hpos].
  - destruct (str_of_Z_digits (- n)) as (Ha & Hne & Hi & _); [lia|].
    assert (E : str_of_Z n = String "-" (str_of_Z (- n))).
    { unfold str_of_Z. destruct (Z.ltb_spec n 0); [|lia].
      destruct (Z.ltb_spec (- n) 0); [lia | reflexivity]. }
    rewrite E. unfold py_int.
    destruct (strip_by_all is_int_space (str_of_Z (- n))) as [_ Hr]; trivial.
    { intros c Hc. now apply digit_facts. }
    assert (S : rstrip_by is_int_space
                  (lstrip_by is_int_space (String "-" (str_of_Z (- n))))
                = String "-" (str_of_Z (- n))).
    { change (lstrip_by is_int_space (String "-" (str_of_Z (- n))))
        with (String "-" (str_of_Z (- n))).
      cbn [rstrip_by]. rewrite Hr. now destruct (str_of_Z (- n)). }
    rewrite S, Hi. cbn [option_map]. f_equal. lia.
  - destruct (str_of_Z_digits n Hpos) as (Ha & _ & Hi & _).
    now rewrite py_int_all_digits.
Qed.

Lemma py_int_fmt02 (n : Z) : py_int (fmt02 n) = Some n.
Proof.
  unfold fmt02. destruct (Z.leb_spec 0 n); cbn [andb];
    [destruct (Z.ltb_spec n 10)|]; try apply py_int_str_of_Z.
  destruct (str_of_Z_digits n) as (Ha & _ & Hi & _); [lia|].
  rewrite py_int_all_digits by (cbn [all_digits]; now rewrite Ha).
  cbn [int_digits is_digit].
  destruct (str_of_Z_digits n ltac:(lia)) as (_ & _ & _ & Hr).
  destruct (Hr (10 * 0 + digit_val "0") true) as [k ->]. reflexivity.
Qed.

Lemma lacks_app (c : ascii) (a b : string) :
  lacks c (a +:+ b) = lacks c a && lacks c b.
Proof.
  induction a as [|d a IH]; simpl; [reflexivity|]. now rewrite IH, andb_assoc.
Qed.

Lemma all_digits_lacks (s : string) :
  all_digits s = true -> lacks ":" s = true.
Proof.
  induction s as [|c s IH]; [reflexivity|]. cbn [all_digits lacks].
  intros H. apply andb_true_iff in H as [Hc Hs].
  destruct (digit_facts c Hc) as (_ & -> & _). now rewrite IH.
Qed.

Lemma fmt02_lacks_colon (n : Z) : lacks ":" (fmt02 n) = true.
Proof.
  assert (P : forall k, 0 <= k -> lacks ":" (str_of_Z k) = true).
  { intros k Hk. apply all_digits_lacks. now apply str_of_Z_digits. }
  assert (N : forall k, lacks ":" (str_of_Z k) = true).
  { intros k. destruct (Z.ltb_spec k 0) as [Hneg|Hpos]; [|now apply P].
    unfold str_of_Z. destruct (Z.ltb_spec k 0); [|lia].
    specialize (P (- k) ltac:(lia)). unfold str_of_Z in P.
    destruct (Z.ltb_spec (- k) 0); [lia|]. cbn [lacks]. now rewrite P. }
  unfold fmt02. destruct (_ && _); [cbn [lacks]; now rewrite N | apply N].
Qed.

Lemma split_char_lacks (c : ascii) (s : string) :
  lacks c s = true -> split_char c s = [s].
Proof.
  induction s as [|d s IH]; [reflexivity|]. cbn [lacks split_char].
  intros H. apply andb_true_iff in H as [Hd Hs]. apply negb_true_iff in Hd.
  now rewrite Hd, (IH Hs).
Qed.

Lemma split_char_app (c : ascii) (a b : string) :
  lacks c a = true ->
  split_char c (a +:+ String c b) = a :: split_char c b.
Proof.
  induction a as [|d a IH]; cbn [lacks String.append split_char].
  - now rewrite Ascii.eqb_refl.
  - intros H. apply andb_true_iff in H as [Hd Ha]. apply negb_true_iff in Hd.
    now rewrite Hd, (IH Ha).
Qed.

Lemma remove_char_lacks (c : ascii) (s : string) :
  lacks c s = true -> remove_char c s = s.
Proof.
  induction s as [|d s IH]; [reflexivity|]. cbn [lacks remove_char].
  intros H. apply andb_true_iff in H as [Hd Hs]. apply negb_true_iff in Hd.
  now rewrite Hd, (IH Hs).
Qed.

Lemma remove_char_app (c : ascii) (a b : string) :
  remove_char c (a +:+ b) = remove_char c a +:+ remove_char c b.
Proof.
  induction a as [|d a IH]; cbn [String.append remove_char]; [reflexivity|].
  destruct (Ascii.eqb d c); cbn [String.append]; now rewrite IH.
Qed.

(** X8.  The three places where an entry holds the time of its lesson
    agree: the start time parses back, as a time of the input does, to the
    hours and minutes of BYHOUR and BYMINUTE in the rule and to itself as
    start time, and DTSTART ends with the letter T, the start time without
    its colon and 00 for the seconds. *)
Theorem entry_times_agree (w : World) (csv_file : string) :
  Forall (fun e =>
            exists h m date,
              parse_time (entry_startTime e) = Some (h, m, entry_startTime e)
              /\ RRULE (entry_ical e)
                 = "FREQ=WEEKLY;BYDAY=" +:+ entry_dayOfWeek e +:+ ";BYHOUR="
                   +:+ str_of_Z h +:+ ";BYMINUTE=" +:+ str_of_Z m
                   +:+ ";BYSECOND=0"
              /\ DTSTART (entry_ical e)
                 = date +:+ "T" +:+ fmt02 h +:+ fmt02 m +:+ "00")
    (snd (convert_students_csv_to_json w csv_file)).
Proof.
  apply schedule_entries_from_rows.
  intros n r e (i & code & h & m & next & _ & _ & ->).
  exists h, m, (strftime_Ymd next).
  cbn [slot_entry entry_startTime entry_ical entry_dayOfWeek RRULE DTSTART].
  split; [|split; [reflexivity|]].
  - unfold parse_time. cbn [String.append].
    rewrite (split_char_app ":" (fmt02 h) (fmt02 m) (fmt02_lacks_colon h)).
    rewrite (split_char_lacks ":" (fmt02 m) (fmt02_lacks_colon m)).
    now rewrite !py_int_fmt02.
  - rewrite remove_char_app. cbn [remove_char String.append].
    change (Ascii.eqb ":" ":") with true. cbn iota.
    rewrite !remove_char_lacks by apply fmt02_lacks_colon.
    now rewrite str_app_assoc.
Qed.

(** X9.  Every student has an id that is not empty; a row without a usable
    stid gets its row number, in decimal, and so the students of a file in
    which no row has a usable stid have pairwise distinct ids. *)
Theorem student_ids (w : World) (csv_file : string) :
  Forall (fun st => student_id st <> EmptyString)
    (fst (convert_students_csv_to_json w csv_file))
  /\ (forall n r, blank_field r "stid" ->
                  student_id (student_of_row n r) = str_of_Z n
                  /\ py_int (student_id (student_of_row n r)) = Some n)
  /\ (Forall (fun r => blank_field r "stid") (input_rows w csv_file) ->
      NoDup (map student_id (fst (convert_students_csv_to_json w csv_file)))).
Proof.
  assert (B : forall n r, blank_field r "stid" ->
                          student_id (student_of_row n r) = str_of_Z n).
  { intros n r Hb. cbn [student_of_row student_id].
    now rewrite (safe_get_blank r "stid" Hb). }
  destruct (students_of_input w csv_file) as (ess & -> & _).
  unfold students_of_rows. generalize (input_rows w csv_file) as rows.
  intros rows. split; [|split].
  - assert (G : forall k, 1 <= k ->
                Forall (fun st => student_id st <> EmptyString)
                  (map (fun nr => student_of_row (fst nr) (snd nr))
                     (enumerate k rows))).
    { induction rows as [|r rows IH]; intros k Hk; [constructor|].
      cbn [enumerate map fst snd]. constructor; [|apply IH; lia].
      cbn [student_of_row student_id]. unfold or_else.
      destruct (truthy (safe_get r "stid" EmptyString)) eqn:T.
      - now apply truthy_true.
      - apply str_of_Z_digits. lia. }
    apply G. lia.
  - intros n r Hb. rewrite (B n r Hb). split; [reflexivity|].
    apply py_int_str_of_Z.
  - intros Hall.
    assert (G : forall k,
                NoDup (map student_id
                         (map (fun nr => student_of_row (fst nr) (snd nr))
                            (enumerate k rows)))
                /\ forall id, In id (map student_id
                                       (map (fun nr => student_of_row (fst nr) (snd nr))
                                          (enumerate k rows))) ->
                              exists j, k <= j /\ id = str_of_Z j).
    { induction Hall as [|r rows Hr _ IH]; intros k.
      - split; [constructor | intros id []].
      - cbn [enumerate map fst snd]. destruct (IH (k + 1)) as [Hnd Hin].
        rewrite (B k r Hr). split.
        + apply NoDup_cons. split; [|exact Hnd].
          rewrite list_elem_of_In. intros Hk.
          destruct (Hin _ Hk) as (j & Hj & E).
          apply (f_equal py_int) in E. rewrite !py_int_str_of_Z in E.
          injection E as E. lia.
        + intros id [<-|Hid]; [exists k; split; [lia | reflexivity]|].
          destruct (Hin _ Hid) as (j & Hj & E). exists j. split; [lia | exact E]. }
    apply G.
Qed.

Lemma student_ids_witness :
  student_id (student_of_row 12 jan_row) = "12"
  /\ NoDup (map student_id
              (fst (convert_students_csv_to_json
                      (world_of [jan_row; jan_row] monday_2024) "students.csv"))).
Proof.
  destruct (student_ids (world_of [jan_row; jan_row] monday_2024) "students.csv")
    as (_ & Hid & Hnd).
  split.
  - destruct (Hid 12 jan_row) as [H _]; [exact I | exact H].
  - apply Hnd. repeat constructor.
Defined.

(** ** YouTube links *)

Lemma take_id_split (t : string) :
  t = take_id t +:+ drop (String.length (take_id t)) t
  /\ all_id (take_id t) = true
  /\ match drop (String.length (take_id t)) t with
     | EmptyString => True
     | String c _ => is_id_char c = false
     end.
Proof.
  induction t as [|c t (IH1 & IH2 & IH4)]; [now repeat split|].
  cbn [take_id]. destruct (is_id_char c) eqn:Hc.
  - cbn [String.length drop String.append all_id]. rewrite Hc, IH2.
    repeat split; trivial. now rewrite <- IH1.
  - cbn [String.length drop String.append all_id]. rewrite Hc.
    repeat split; trivial.
Qed.

(** What a match of a pattern returns: the longest run of identifier
    characters, not empty, right after an occurrence of the literal. *)
Lemma re_search_id_sound (lit s id : string) :
  re_search_id lit s = Some id ->
  exists pre post,
    s = pre +:+ lit +:+ id +:+ post
    /\ id <> EmptyString /\ all_id id = true
    /\ match post with
       | EmptyString => True
       | String c _ => is_id_char c = false
       end.
Proof.
  assert (Here : forall t, match_id_here lit t = Some id ->
            exists post, t = lit +:+ id +:+ post
                         /\ id <> EmptyString /\ all_id id = true
                         /\ match post with
                            | EmptyString => True
                            | String c _ => is_id_char c = false
                            end).
  { intros t. unfold match_id_here.
    destruct (startswith t lit) eqn:Hs; [|discriminate].
    apply startswith_drop in Hs.
    destruct (take_id_split (drop (String.length lit) t)) as (E & Ha & Hc).
    destruct (take_id _) as [|c u] eqn:Ht; [discriminate|].
    intros [= <-]. eexists. split; [|split; [discriminate | split; [exact Ha | exact Hc]]].
    now rewrite <- E. }
  induction s as [|c s IH].
  - cbn [re_search_id]. destruct (match_id_here lit EmptyString) eqn:M;
      [|discriminate].
    intros [= ->]. destruct (Here _ M) as (post & E & H).
    exists EmptyString, post. auto.
  - cbn [re_search_id]. destruct (match_id_here lit (String c s)) eqn:M.
    + intros [= ->]. destruct (Here _ M) as (post & E & H).
      exists EmptyString, post. auto.
    + intros H. destruct (IH H) as (pre & post & E & H').
      exists (String c pre), post. cbn [String.append]. rewrite <- E. auto.
Qed.

Lemma first_youtube_match_sound (patterns : list string) (s id : string) :
  first_youtube_match patterns s = Some id ->
  exists lit pre post,
    In lit patterns /\ s = pre +:+ lit +:+ id +:+ post
    /\ id <> EmptyString /\ all_id id = true
    /\ match post with
       | EmptyString => True
       | String c _ => is_id_char c = false
       end.
Proof.
  induction patterns as [|lit patterns IH]; [discriminate|].
  cbn [first_youtube_match].
  destruct (re_search_id lit s) as [u|] eqn:R.
  - intros [= ->]. destruct (re_search_id_sound lit s id R) as (pre & post & H).
    exists lit, pre, post. split; [now left | exact H].
  - intros H. destruct (IH H) as (l & pre & post & Hin & H').
    exists l, pre, post. split; [now right | exact H'].
Qed.

(** X10.  [youtube_url_to_iframe] returns the empty string for an input
    that is empty or nan, else the embed of a video id, else its input
    trimmed.  The video id is never empty and holds only letters, digits,
    underscores and hyphens: it is the longest such run right after
    youtube.com/watch?v=, youtu.be/ or youtube.com/shorts/ in the trimmed
    input. *)
Theorem youtube_url_to_iframe_cases (url : string) :
  (url = EmptyString \/ lower (strip url) = "nan" ->
   youtube_url_to_iframe url = EmptyString)
  /\ (url <> EmptyString -> lower (strip url) <> "nan" ->
      youtube_url_to_iframe url = strip url
      \/ exists lit pre id post,
           In lit ["youtube.com/watch?v="; "youtu.be/"; "youtube.com/shorts/"]
           /\ strip url = pre +:+ lit +:+ id +:+ post
           /\ id <> EmptyString /\ all_id id = true
           /\ match post with
              | EmptyString => True
              | String c _ => is_id_char c = false
              end
           /\ youtube_url_to_iframe url = youtube_iframe id).
Proof.
  unfold youtube_url_to_iframe. split.
  - intros [-> | ->]; [reflexivity | now rewrite orb_true_r].
  - intros Hne Hnan. apply String.eqb_neq in Hne, Hnan.
    rewrite Hne, Hnan. cbn [orb].
    destruct (first_youtube_match youtube_patterns (strip url)) as [id|] eqn:M;
      [right | now left].
    destruct (first_youtube_match_sound _ _ _ M)
      as (lit & pre & post & Hin & E & H1 & H2 & H3).
    exists lit, pre, id, post. repeat split; trivial.
    simpl in Hin. simpl. tauto.
Qed.

Lemma youtube_url_to_iframe_cases_witness :
  youtube_url_to_iframe " NaN " = EmptyString
  /\ (youtube_url_to_iframe " https://youtu.be/a_b-9?t=1 "
      = "https://youtu.be/a_b-9?t=1"
      \/ exists lit pre id post,
           In lit ["youtube.com/watch?v="; "youtu.be/"; "youtube.com/shorts/"]
           /\ "https://youtu.be/a_b-9?t=1" = pre +:+ lit +:+ id +:+ post
           /\ id <> EmptyString /\ all_id id = true
           /\ match post with
              | EmptyString => True
              | String c _ => is_id_char c = false
              end
           /\ youtube_url_to_iframe " https://youtu.be/a_b-9?t=1 "
              = youtube_iframe id).
Proof.
  split.
  - destruct (youtube_url_to_iframe_cases " NaN ") as [H _]. apply H. now right.
  - destruct (youtube_url_to_iframe_cases " https://youtu.be/a_b-9?t=1 ")
      as [_ H].
    apply H; discriminate.
Defined.

Lemma startswith_blocked (lit id rest : string) (q : ascii) :
  blocked lit q = true -> all_id id = true ->
  startswith (id +:+ String q rest) lit = false.
Proof.
  revert lit. induction id as [|x id IH]; intros [|c l]; try discriminate;
    cbn [blocked all_id String.append startswith]; intros Hb Ha.
  - apply andb_true_iff in Hb as [Hq _]. apply negb_true_iff in Hq.
    now rewrite Hq.
  - apply andb_true_iff in Hb as [_ Hb], Ha as [Hx Ha].
    destruct (Ascii.eqb_spec c x) as [->|_]; [|reflexivity].
    rewrite Hx in Hb. now rewrite (IH l Hb Ha).
Qed.

(** No match of a blocked literal starts inside a video id that a
    character outside the literal's head follows. *)
Lemma re_search_id_blocked (lit id rest : string) (q : ascii) :
  blocked lit q = true -> all_id id = true ->
  re_search_id lit (id +:+ String q rest) = re_search_id lit (String q rest).
Proof.
  intros Hb. induction id as [|x id IH]; [reflexivity|].
  intros Ha. pose proof (startswith_blocked lit (String x id) rest q Hb Ha) as S.
  cbn [all_id] in Ha. apply andb_true_iff in Ha as [_ Ha].
  cbn [String.append re_search_id] in *. unfold match_id_here at 1.
  rewrite S. now apply IH.
Qed.

Lemma re_search_id_skip (lit : string) (c : ascii) (s : string) :
  match_id_here lit (String c s) = None ->
  re_search_id lit (String c s) = re_search_id lit s.
Proof. intros H. cbn [re_search_id]. now rewrite H. Qed.

(** The embed holds no link that a pattern matches. *)
Lemma first_youtube_match_iframe (id : string) :
  all_id id = true ->
  first_youtube_match youtube_patterns (youtube_iframe id) = None.
Proof.
  intros Ha. unfold youtube_patterns, youtube_iframe, dq.
  cbn [String.append first_youtube_match].
  repeat (rewrite re_search_id_skip by reflexivity).
  rewrite !(re_search_id_blocked _ id _ dquote) by (reflexivity || exact Ha).
  reflexivity.
Qed.

Lemma strip_youtube_iframe (id : string) :
  strip (youtube_iframe id) = youtube_iframe id.
Proof.
  unfold strip. rewrite lstrip_id by reflexivity.
  unfold youtube_iframe. rewrite <- !str_app_assoc.
  now rewrite rstrip_app.
Qed.

(** X11.  [youtube_url_to_iframe] is idempotent: the embed it makes holds
    no link that it would rewrite, and an input it leaves alone stays as it
    is once trimmed. *)
Theorem youtube_url_to_iframe_idempotent (url : string) :
  youtube_url_to_iframe (youtube_url_to_iframe url) = youtube_url_to_iframe url.
Proof.
  unfold youtube_url_to_iframe at 2 3.
  destruct (String.eqb url EmptyString
            || String.eqb (lower (strip url)) "nan") eqn:G; [reflexivity|].
  apply orb_false_iff in G as [_ Hnan].
  destruct (first_youtube_match youtube_patterns (strip url)) as [id|] eqn:M.
  - destruct (first_youtube_match_sound _ _ _ M)
      as (lit & pre & post & _ & _ & _ & Ha & _).
    unfold youtube_url_to_iframe. rewrite strip_youtube_iframe.
    replace (String.eqb (youtube_iframe id) EmptyString) with false
      by reflexivity.
    replace (String.eqb (lower (youtube_iframe id)) "nan") with false
      by reflexivity.
    cbn [orb]. now rewrite (first_youtube_match_iframe id Ha).
  - unfold youtube_url_to_iframe. rewrite strip_idem, Hnan, orb_false_r, M.
    destruct (String.eqb_spec (strip url) EmptyString) as [E|_];
      [now rewrite E | reflexivity].
Qed.

(** ** The command line *)

Lemma main_prints_run lines st :
  main_prints lines st
  = (Ok tt, {| made_dirs := made_dirs st; written := written st;
               main_stdout := main_stdout st ++ lines |}).
Proof. reflexivity. Qed.

Lemma for_each_main_print lines st :
  for_each main_print lines st
  = (Ok tt, {| made_dirs := made_dirs st; written := written st;
               main_stdout := main_stdout st ++ lines |}).
Proof.
  revert st; induction lines as [|line lines IH]; intros st.
  - cbn. rewrite app_nil_r. now destruct st.
  - cbn [for_each]. unfold bind. cbn [main_print main_prints modify].
    rewrite IH. cbn. now rewrite <- app_assoc.
Qed.

(** X12. Called with no input option, or with empty ones, main creates the
    output directory all the same, writes no file, prints the line that
    asks for inputs and exits with status 1. *)
Theorem main_without_inputs (h : Host) (args : Args) :
  no_input args ->
  os_makedirs h (args_outdir args) = None ->
  main h args main_init
  = (Ok (SystemExit 1),
     {| made_dirs := [args_outdir args]; written := [];
        main_stdout := [usage_line] |}).
Proof.
  intros (Hs & Hn & Ht) Hdir.
  assert (Hsel : forall a, not_given a = true -> selected h a = None).
  { intros [p|]; cbn; [|reflexivity]. intros Hp.
    apply negb_true_iff in Hp. now rewrite Hp. }
  unfold main, makedirs, main_songs, main_notatie, main_students.
  rewrite Hdir, (Hsel _ Hs), (Hsel _ Hn), (Hsel _ Ht), Hs, Hn, Ht.
  reflexivity.
Qed.

Lemma main_without_inputs_witness :
  main (host_of world_without_file []) (args_of None (Some EmptyString) None) main_init
  = (Ok (SystemExit 1),
     {| made_dirs := ["export"]; written := []; main_stdout := [usage_line] |}).
Proof.
  apply (main_without_inputs (host_of world_without_file [])
           (args_of None (Some EmptyString) None)).
  - split; [reflexivity | split; reflexivity].
  - reflexivity.
Defined.

Lemma wrote_nothing {A} h st st' (a : A) :
  made_dirs st' = made_dirs st -> written st' = written st ->
  wrote h [] st (Ok a, st').
Proof. intros Hd Hw. split; cbn; [assumption|]. now rewrite app_nil_r. Qed.

Lemma wrote_bind {A} h files1 files2 (m : M main_state unit)
    (k : M main_state A) st :
  wrote h files1 st (m st) ->
  (forall st', wrote h files2 st' (k st')) ->
  wrote h (files1 ++ files2) st ((m ;;; k) st).
Proof.
  intros [Hd Hw] Hk. unfold bind. destruct (m st) as [[[]|e] st1]; cbn in *.
  - destruct (Hk st1) as [Hd2 Hw2]. split; [congruence|].
    destruct (fst (k st1)) as [a|e].
    + now rewrite Hw2, Hw, app_assoc.
    + destruct Hw2 as (done & path & value & rest & -> & Hw2 & He).
      exists (files1 ++ done), path, value, rest.
      rewrite Hw2, Hw, <- !app_assoc. auto.
  - split; [assumption|].
    destruct Hw as (done & path & value & rest & -> & Hw & He).
    exists done, path, value, (rest ++ files2).
    rewrite <- app_assoc. auto.
Qed.

Lemma wrote_print {A} h files lines (k : M main_state A) st :
  (forall st', wrote h files st' (k st')) ->
  wrote h files st ((main_prints lines ;;; k) st).
Proof.
  intros Hk. apply (wrote_bind h [] files (main_prints lines) k st); [|exact Hk].
  now apply wrote_nothing.
Qed.

Lemma wrote_dump h path value st :
  wrote h [(path, value)] st (dump h path value st).
Proof.
  unfold dump. destruct (open_write h path) as [e|] eqn:He; split; cbn; auto.
  exists [], path, value, []. rewrite app_nil_r. auto.
Qed.

Lemma wrote_dump_then {A} h path value files (k : M main_state A) st :
  (forall st', wrote h files st' (k st')) ->
  wrote h ((path, value) :: files) st ((dump h path value ;;; k) st).
Proof.
  intros Hk.
  apply (wrote_bind h [(path, value)] files (dump h path value) k st);
    [apply wrote_dump | exact Hk].
Qed.

Lemma main_songs_wrote h args st :
  wrote h (songs_file h args) st (main_songs h args st).
Proof.
  unfold main_songs, songs_file, main_print.
  destruct (selected h (args_songs args)) as [path|]; [|now apply wrote_nothing].
  apply wrote_print; intros st1. apply wrote_print; intros st2.
  apply wrote_dump_then; intros st3. now apply wrote_nothing.
Qed.

Lemma main_notatie_wrote h args st :
  wrote h (lessons_file h args) st (main_notatie h args st).
Proof.
  unfold main_notatie, lessons_file, main_print.
  destruct (selected h (args_notatie args)) as [path|]; [|now apply wrote_nothing].
  apply wrote_print; intros st1. apply wrote_print; intros st2.
  apply wrote_dump_then; intros st3. now apply wrote_nothing.
Qed.

Lemma main_students_wrote h args st :
  wrote h (students_files h args) st (main_students h args st).
Proof.
  unfold main_students, students_files, main_print.
  destruct (selected h (args_students args)) as [path|]; [|now apply wrote_nothing].
  cbn [convert_students_csv_to_json fst snd].
  apply wrote_print; intros st1. apply wrote_print; intros st2.
  apply wrote_dump_then; intros st3. apply wrote_dump_then; intros st4.
  apply wrote_print; intros st5. now apply wrote_nothing.
Qed.

Lemma main_ending_wrote h args st :
  wrote h [] st
    ((if not_given (args_songs args) && not_given (args_notatie args)
         && not_given (args_students args)
      then main_print usage_line ;;; ret (SystemExit 1)
      else for_each main_print banner ;;; ret Returned) st).
Proof.
  destruct (_ && _); unfold bind.
  - now apply wrote_nothing.
  - rewrite for_each_main_print. now apply wrote_nothing.
Qed.

(** X13. Whatever fails, main writes no file but those of the inputs that
    are given and exist, each under its fixed name in the output
    directory and holding the converter's result, in the order songs,
    lessons, students, schedule: when it ends without exception it has
    written them all, and when it ends on an exception, that is the one of
    creating the directory, with nothing written, or the one of the first
    write that failed, with the files before it written and no later
    one. *)
Theorem main_files (h : Host) (args : Args) :
  match os_makedirs h (args_outdir args) with
  | Some e => main h args main_init = (Raise e, main_init)
  | None =>
      wrote h (songs_file h args ++ lessons_file h args ++ students_files h args)
        (main_ready args) (main h args main_init)
  end.
Proof.
  unfold main, makedirs.
  destruct (os_makedirs h (args_outdir args)) as [e|] eqn:Hdir; [reflexivity|].
  change ((modify _ ;;; ?k) main_init) with (k (main_ready args)).
  apply wrote_bind; [apply main_songs_wrote|]; intros st1.
  apply wrote_bind; [apply main_notatie_wrote|]; intros st2.
  rewrite <- (app_nil_r (students_files h args)).
  apply wrote_bind; [apply main_students_wrote|]; intros st3.
  apply main_ending_wrote.
Qed.

(** X14. An input that is named but does not exist is passed over without
    a word: when none of the named inputs exists, main converts and writes
    nothing, and still returns normally after printing the five lines that
    announce a complete conversion. *)
Theorem main_missing_inputs (h : Host) (args : Args) :
  nothing_found h args ->
  ~ no_input args ->
  os_makedirs h (args_outdir args) = None ->
  main h args main_init
  = (Ok Returned,
     {| made_dirs := [args_outdir args]; written := [];
        main_stdout := banner |}).
Proof.
  intros (Hs & Hn & Ht) Hgiven Hdir.
  unfold main, makedirs, main_songs, main_notatie, main_students.
  rewrite Hdir, Hs, Hn, Ht.
  destruct (not_given (args_songs args) && not_given (args_notatie args)
            && not_given (args_students args)) eqn:Hb.
  - exfalso. apply Hgiven.
    apply andb_true_iff in Hb as [Hb H3]. apply andb_true_iff in Hb as [H1 H2].
    now split; [|split].
  - unfold bind at 1 2 3 4. cbn [modify ret].
    unfold bind. rewrite for_each_main_print. reflexivity.
Qed.

Lemma main_missing_inputs_witness :
  main (host_of world_without_file []) (args_of (Some "songs.csv") None None)
    main_init
  = (Ok Returned,
     {| made_dirs := ["export"]; written := []; main_stdout := banner |}).
Proof.
  apply (main_missing_inputs (host_of world_without_file [])
           (args_of (Some "songs.csv") None None)).
  - split; [reflexivity | split; reflexivity].
  - intros (H & _). discriminate H.
  - reflexivity.
Defined.

(** ** What the converters print and name *)

Lemma decode_any_failed (w : World) (csv_file enc : string) (e : exn) :
  first_failure w csv_file enc e ->
  decode_any w csv_file encodings = Failed e.
Proof.
  intros (before & after & -> & Hb & Hraise & Hkind).
  induction Hb as [|x before (e' & Hx & Hk) _ IH]; cbn [decode_any app].
  - rewrite Hraise. unfold is_decode_error.
    destruct (exn_kind e); try reflexivity. now contradict Hkind.
  - rewrite Hx. unfold is_decode_error. now rewrite Hk.
Qed.

(** X15. Only a decoding error makes a converter try the next encoding:
    on any other exception of an attempt to read the file, a missing file
    for one, the converter tries no further encoding, prints one line, the
    reading error with the text of that exception, and returns nothing,
    whatever the encodings left would have given. *)
Theorem other_errors_not_retried (w : World) (csv_file enc : string) (e : exn) :
  first_failure w csv_file enc e ->
  songs_run w csv_file
  = {| songs := []; songs_stdout := ["Error reading songs CSV: " +:+ exn_text e] |}
  /\ lessons_run w csv_file
     = {| lessons := [];
          lessons_stdout := ["Error reading notation CSV: " +:+ exn_text e] |}
  /\ students_run w csv_file
     = {| students := []; schedule := [];
          students_stdout := ["Error reading students CSV: " +:+ exn_text e];
          clock_calls := O |}.
Proof.
  intros H. apply decode_any_failed in H.
  split; [|split].
  - rewrite songs_run_eq, H. reflexivity.
  - rewrite lessons_run_eq, H. reflexivity.
  - unfold students_run. rewrite converter_run, H. reflexivity.
Qed.

Lemma other_errors_not_retried_witness :
  songs_run (world_late [jan_row] monday_2024) "songs.csv"
  = {| songs := [];
       songs_stdout := ["Error reading songs CSV: " +:+ exn_text missing_file] |}
  /\ lessons_run (world_late [jan_row] monday_2024) "songs.csv"
     = {| lessons := [];
          lessons_stdout :=
            ["Error reading notation CSV: " +:+ exn_text missing_file] |}
  /\ students_run (world_late [jan_row] monday_2024) "songs.csv"
     = {| students := []; schedule := [];
          students_stdout :=
            ["Error reading students CSV: " +:+ exn_text missing_file];
          clock_calls := O |}.
Proof.
  apply (other_errors_not_retried (world_late [jan_row] monday_2024)
           "songs.csv" "utf-8" missing_file).
  exists [], ["latin-1"; "cp1252"; "iso-8859-1"].
  split; [reflexivity|]. split; [constructor|].
  split; [reflexivity | discriminate].
Defined.

Lemma or_else_nonempty (a b : string) :
  b <> EmptyString -> or_else a b <> EmptyString.
Proof.
  intros Hb. unfold or_else. destruct (truthy a) eqn:Ha; [|exact Hb].
  now apply truthy_true.
Qed.

Lemma app_nonempty (a b : string) :
  a <> EmptyString -> a +:+ b <> EmptyString.
Proof. destruct a; [congruence | discriminate]. Qed.

(** X16. No record comes out without a name: every song has a title and
    an artist that are not empty, and every notation pattern has a title
    that is not empty, whatever the rows hold. *)
Theorem records_have_titles (w : World) (csv_file : string) :
  Forall (fun s => song_title s <> EmptyString /\ song_artist s <> EmptyString)
    (convert_songs_csv_to_json w csv_file)
  /\ Forall (fun l => lesson_title l <> EmptyString)
       (convert_notatie_csv_to_json w csv_file).
Proof.
  split.
  - rewrite songs_of_input. unfold songs_of_rows.
    apply Forall_map, Forall_forall. intros [n r] _.
    cbn [fst snd song_of_row song_title song_artist].
    split; apply or_else_nonempty; discriminate.
  - rewrite lessons_of_input. unfold lessons_of_rows.
    apply Forall_map, Forall_forall. intros [n r] _.
    cbn [fst snd lesson_of_row lesson_title].
    destruct (truthy (get2 r "noCategorie" "categorie")) eqn:Hc;
      [|cbn [andb]; discriminate].
    apply truthy_true in Hc.
    destruct (_ && _ && _); [now apply app_nonempty|].
    destruct (_ && _); [now apply app_nonempty | discriminate].
Qed.

(** X17. The converters of songs and of notation patterns never print a
    warning about a row: they print at most two lines, the line of the
    successful reading and the line of a reading error. *)
Theorem songs_and_lessons_never_warn (w : World) (csv_file : string) :
  (Forall (fun line => startswith line "Warning" = false)
     (songs_stdout (songs_run w csv_file))
   /\ (length (songs_stdout (songs_run w csv_file)) <= 2)%nat)
  /\ (Forall (fun line => startswith line "Warning" = false)
        (lessons_stdout (lessons_run w csv_file))
      /\ (length (lessons_stdout (lessons_run w csv_file)) <= 2)%nat).
Proof.
  split.
  - rewrite songs_run_eq.
    destruct (decode_any w csv_file encodings) as [enc text|e|];
      [destruct (snd (DictReader w text))| |];
      cbn [songs_stdout length]; (split; [|lia]);
      repeat constructor.
  - rewrite lessons_run_eq.
    destruct (decode_any w csv_file encodings) as [enc text|e|];
      [destruct (snd (DictReader w text))| |];
      cbn [lessons_stdout length]; (split; [|lia]);
      repeat constructor.
Qed.
